(** * echart-cpu: the adaptive multi-resolution data pipeline

    A shallow embedding of
      - [src/utils/monitorData.ts]      (resolution policy, series synthesis),
      - [src/services/monitorService.ts] (window cache, data loader),
      - [src/components/MonitorChart.tsx] (debounce, render sampling),
    and the properties of these functions.

    Conventions of the embedding.
      - A timestamp or a duration in milliseconds is a [Z]; a quotient of two
        of them, and a metric value, is an exact rational [Q] (the rounding of
        IEEE doubles is not modelled).
      - A JS object used as a dictionary is a [gmap string _].
      - [Date.now()] is an argument [now]; the successive results of
        [Math.random()] are a stream [random : nat -> Q], read through a
        small state monad that threads the index of the next draw.
      - An optional parameter ([start?: number]) is an [option]. *)

From Stdlib Require Import ZArith QArith Qround Qminmax Lia Lqa.
From stdpp Require Import gmap strings list fin_maps pretty sorting.

Local Open Scope Z_scope.

(** ** [src/utils/monitorData.ts] *)

Module MonitorData.

(** [export type Resolution = '1d' | '1h' | '1m' | '30s'] *)
Inductive Resolution := R1d | R1h | R1m | R30s.

#[global] Instance Resolution_eq_dec : EqDecision Resolution.
Proof. solve_decision. Defined.

(** The string a resolution is at run time. *)
Definition Resolution_str (r : Resolution) : string :=
  match r with
  | R1d => "1d" | R1h => "1h" | R1m => "1m" | R30s => "30s"
  end.

Definition SECOND : Z := 1000.
Definition MINUTE : Z := 60 * 1000.
Definition HOUR : Z := 60 * 60 * 1000.
Definition DAY : Z := 24 * 60 * 60 * 1000.
Definition MONTH : Z := 30 * 24 * 60 * 60 * 1000.
Definition YEAR : Z := 365 * 24 * 60 * 60 * 1000.

(** [RESOLUTION_INTERVALS] *)
Definition RESOLUTION_INTERVALS (r : Resolution) : Z :=
  match r with
  | R1d => 24 * 60 * 60 * 1000
  | R1h => 60 * 60 * 1000
  | R1m => 60 * 1000
  | R30s => 30 * 1000
  end.

(** [a / b] on two integers that are JS numbers, as an exact quotient. *)
Definition ratio (a b : Z) : Q := (inject_Z a / inject_Z b)%Q.

(** [x >= 1] *)
Definition ge1 (x : Q) : bool := Qle_bool 1 x.

(** [getResolutionForRange] (the [console.log] is left out). *)
Definition getResolutionForRange (start end_ : Z) : Resolution :=
  let duration := end_ - start in
  let durationInYears := ratio duration (365 * 24 * 60 * 60 * 1000) in
  let durationInMonths := ratio duration (30 * 24 * 60 * 60 * 1000) in
  let durationInDays := ratio duration (24 * 60 * 60 * 1000) in
  let durationInHours := ratio duration (60 * 60 * 1000) in
  if ge1 durationInYears then R1d
  else if ge1 durationInMonths then R1h
  else if ge1 durationInDays then R1m
  else if ge1 durationInHours then R1m
  else R30s.


(** [interface MetricPoint { t: number; [metric: string]: number }]: one JS
    object holding the timestamp under the key ["t"] and one value per metric
    name. *)
Abbreviation MetricPoint := (gmap string Q).

(** [interface MetricsResponse] *)
Record MetricsResponse := {
  step : Resolution;
  points : list MetricPoint
}.

(** [obj[key] = v] on a plain object whose values are numbers.  Every key
    becomes an own property, except ["__proto__"]: the setter inherited from
    [Object.prototype] ignores a value that is not an object. *)
Definition obj_set (obj : gmap string Q) (key : string) (v : Q) : gmap string Q :=
  if decide (key = "__proto__") then obj else <[key:=v]> obj.

(** [Math.round(x)]: the nearest integer, halves upwards. *)
Definition Math_round (x : Q) : Z := Qfloor (x + (1 # 2))%Q.

(** [Math.ceil(x)] *)
Definition Math_ceil (x : Q) : Z := Qceiling x.

(** [parseFloat(x.toFixed(1))]: the value rounded to one decimal, the halves
    away from zero. *)
Definition toFixed1 (x : Q) : Q := (
  if Qle_bool 0 x then inject_Z (Qfloor (x * 10 + (1 # 2))) / 10
  else - (inject_Z (Qfloor (- x * 10 + (1 # 2))) / 10))%Q.

(** [a || b] on an optional number: [undefined] and [0] are falsy. *)
Definition or_num (a : option Z) (b : Z) : Z :=
  match a with
  | Some x => if x =? 0 then b else x
  | None => b
  end.

(** [getPointCount] *)
Definition getPointCount (start end_ : Z) (resolution : Resolution) : Z :=
  let duration := end_ - start in
  match resolution with
  | R30s => Math_ceil (ratio duration (RESOLUTION_INTERVALS R30s))
  | R1m => Math_ceil (ratio duration (RESOLUTION_INTERVALS R1m))
  | R1h => Math_ceil (ratio duration (RESOLUTION_INTERVALS R1h))
  | R1d => Math_ceil (ratio duration (RESOLUTION_INTERVALS R1d))
  end.

(** The metric list [generateDataByResolution] uses when none is passed. *)
Definition defaultMetricNames : list string :=
  ["cpu_1"; "cpu_2"; "cpu_3"; "gpu_1"; "gpu_2"; "memory"]%string.

(** The [range] the loop body picks for a metric. *)
Definition metricRange (metric : string) : Q :=
  if String.prefix "cpu" metric then
    (if decide (metric = "cpu_1") then 10
     else if decide (metric = "cpu_2") then 8 else 12)%Q
  else if String.prefix "gpu" metric then
    (if decide (metric = "gpu_1") then 15 else 12)%Q
  else if decide (metric = "memory") then 8%Q
  else 15%Q.

(** *** Code that draws random numbers

    [random k] is the result of the [k]-th call of [Math.random()]; a
    computation gets the index of the next draw and returns the index after
    its last one. *)
Section Random.

Variable random : nat -> Q.

Definition Rand (A : Type) : Type := nat -> A * nat.

#[global] Instance Rand_ret : MRet Rand := fun A a k => (a, k).

#[global] Instance Rand_bind : MBind Rand :=
  fun A B f m k => let (a, k') := m k in f a k'.

Definition Math_random : Rand Q := fun k => (random k, S k).

(** [l.forEach(x => body)] where the body updates an accumulator. *)
Fixpoint forEach {A S} (l : list A) (body : A -> S -> Rand S) (s : S) : Rand S :=
  match l with
  | [] => mret s
  | x :: l' => s' ← body x s; forEach l' body s'
  end.

(** [generateRandomValue]; the two calls of [Math.random()] are evaluated
    from left to right. *)
Definition generateRandomValue (base range volatility : Q) : Rand Q :=
  r1 ← Math_random;
  r2 ← Math_random;
  mret (Qmax 0 (Qmin 100
    (base + (r1 - (1 # 2)) * range + (r2 - (1 # 2)) * volatility * range)))%Q.

(** The first [forEach] of [generateDataByResolution]: a base value per
    metric. *)
Definition baseValue (metric : string) (baseValues : gmap string Q)
  : Rand (gmap string Q) :=
  r ← Math_random;
  mret (if String.prefix "cpu" metric then obj_set baseValues metric (30 + r * 20)
       else if String.prefix "gpu" metric then obj_set baseValues metric (40 + r * 30)
       else if decide (metric = "memory") then obj_set baseValues metric (60 + r * 20)
       else obj_set baseValues metric (50 + r * 30))%Q.

(** The inner [forEach]: one value of one point.  [baseValues[metric]] is a
    number for every metric name but ["__proto__"], for which the
    assignment stores nothing whatever the value is. *)
Definition pointValue (baseValues : gmap string Q) (metric : string)
  (point : MetricPoint) : Rand MetricPoint :=
  let range := metricRange metric in
  v ← generateRandomValue (default 0%Q (baseValues !! metric)) range (1 # 10);
  mret (obj_set point metric (toFixed1 v)).

(** The body of the [for] loop: the point of index [i]. *)
Definition makePoint (defaultMetrics : list string) (baseValues : gmap string Q)
  (startTime : Z) (interval : Q) (i : Z) (points : list MetricPoint)
  : Rand (list MetricPoint) :=
  let timestamp := Math_round (inject_Z startTime + inject_Z i * interval)%Q in
  let point : MetricPoint := {[ "t"%string := inject_Z timestamp ]} in
  point' ← forEach defaultMetrics (pointValue baseValues) point;
  mret (points ++ [point']).

(** [generateDataByResolution]; [now] is the result of [Date.now()]. *)
Definition generateDataByResolution (now : Z) (resolution : Resolution)
  (start end_ : option Z) (metrics : option (list string)) : Rand MetricsResponse :=
  let defaultMetrics := default defaultMetricNames metrics in
  let defaultStart := now - 365 * 24 * 60 * 60 * 1000 in
  let startTime := or_num start defaultStart in
  let endTime := or_num end_ now in
  let pointCount := getPointCount startTime endTime resolution in
  let pointCount := Z.min pointCount 10000 in
  baseValues ← forEach defaultMetrics baseValue ∅;
  let interval :=
    ratio (endTime - startTime) (if pointCount - 1 =? 0 then 1 else pointCount - 1) in
  points ← forEach (seqZ 0 pointCount)
             (makePoint defaultMetrics baseValues startTime interval) [];
  mret {| step := resolution; points := points |}.

(** [fetchMetrics]: a timer of [100 + Math.random() * 200] ms, then the
    promise is fulfilled with the generated series; [now] is the time at
    which the timer fires.  The result is the delay and the value. *)
Definition fetchMetrics (now : Z) (start end_ : Z) (metrics : list string)
  (resolution : Resolution) : Rand (Q * MetricsResponse) :=
  r ← Math_random;
  data ← generateDataByResolution now resolution (Some start) (Some end_) (Some metrics);
  mret ((100 + r * 200)%Q, data).

(** [generateInitialData]; [now] is the clock it reads itself, [now'] the
    clock that [generateDataByResolution] reads after it. *)
Definition generateInitialData (now now' : Z) : Rand MetricsResponse :=
  let start := now - 365 * 24 * 60 * 60 * 1000 in
  generateDataByResolution now' R1d (Some start) (Some now) None.

End Random.


(** A computation run from the first draw of the stream. *)
Definition run {A} (m : Rand A) : A := fst (m 0%nat).

End MonitorData.

Import MonitorData.

(** ** [src/services/monitorService.ts] *)

Module MonitorService.

(** The two private dictionaries of [class MonitorService]. *)
Record MonitorService := {
  cache : gmap string MetricsResponse;
  cacheExpiry : gmap string Z
}.

Definition CACHE_DURATION : Z := 5 * 60 * 1000.

(** [new MonitorService()] *)
Definition empty_service : MonitorService := {| cache := ∅; cacheExpiry := ∅ |}.

(** [metrics.sort()]: without a comparator the strings are ordered by their
    code units (metric names are ASCII).  The sorted sequence of a list of
    strings is unique, so that the sorting algorithm does not matter. *)
Fixpoint sort_insert (x : string) (l : list string) : list string :=
  match l with
  | [] => [x]
  | y :: l' => if String.leb x y then x :: l else y :: sort_insert x l'
  end.

Definition Array_sort (l : list string) : list string := foldr sort_insert [] l.

(** [generateCacheKey].  [sort] works in place: the second component is the
    caller's array as the call leaves it.  A timestamp is printed in decimal
    (JS does so below 10^21). *)
Definition generateCacheKey (start end_ : Z) (resolution : Resolution)
  (metrics : list string) : string * list string :=
  let metrics := Array_sort metrics in
  (pretty start +:+ "-" +:+ pretty end_ +:+ "-" +:+ Resolution_str resolution
     +:+ "-" +:+ String.concat "," metrics,
   metrics).

(** What [getData] holds while it awaits the promise of [fetchMetrics]. *)
Record Pending := {
  p_start : Z;
  p_end : Z;
  p_metrics : list string;
  p_resolution : Resolution;
  p_cacheKey : string;
  p_now : Z
}.

(** [getData] up to its [await]: it returns from the cache, or it has called
    [fetchMetrics] and waits. *)
Inductive Started :=
| CacheHit (data : MetricsResponse)
| Awaiting (p : Pending).

(** How the awaited promise is settled. *)
Inductive Settled :=
| Fulfilled (data : MetricsResponse)
| Rejected.

(** [this.cache[cacheKey] && now - this.cacheExpiry[cacheKey] < this.CACHE_DURATION];
    a missing expiry makes the difference [NaN] and the test false. *)
Definition cache_valid (svc : MonitorService) (cacheKey : string) (now : Z)
  : option MetricsResponse :=
  match cache svc !! cacheKey, cacheExpiry svc !! cacheKey with
  | Some data, Some fetchedAt =>
      if now - fetchedAt <? CACHE_DURATION then Some data else None
  | _, _ => None
  end.

(** [getData], from its call to the [await]; [now] is [Date.now()]. *)
Definition getData_begin (svc : MonitorService) (now : Z) (start end_ : Z)
  (metrics : list string) : Started :=
  let resolution := getResolutionForRange start end_ in
  let '(cacheKey, metrics) := generateCacheKey start end_ resolution metrics in
  match cache_valid svc cacheKey now with
  | Some data => CacheHit data
  | None =>
      Awaiting {| p_start := start; p_end := end_; p_metrics := metrics;
                  p_resolution := resolution; p_cacheKey := cacheKey;
                  p_now := now |}
  end.

(** [getData], from the [await] on: the [try] continues with the data, or the
    [catch] generates the series; [svc] is the service as it is then, [now']
    the clock that [generateDataByResolution] reads. *)
Definition getData_resume (random : nat -> Q) (now' : Z) (svc : MonitorService)
  (p : Pending) (o : Settled) : Rand (MonitorService * MetricsResponse) :=
  match o with
  | Fulfilled data =>
      mret ({| cache := <[p_cacheKey p := data]> (cache svc);
               cacheExpiry := <[p_cacheKey p := p_now p]> (cacheExpiry svc) |},
            data)
  | Rejected =>
      data ← generateDataByResolution random now' (p_resolution p)
               (Some (p_start p)) (Some (p_end p)) (Some (p_metrics p));
      mret (svc, data)
  end.

(** The promise of the repository's [fetchMetrics] is always fulfilled. *)
Definition await_fetchMetrics (random : nat -> Q) (now' : Z) (p : Pending)
  : Rand Settled :=
  r ← fetchMetrics random now' (p_start p) (p_end p) (p_metrics p) (p_resolution p);
  mret (Fulfilled r.2).

(** [clearCache]; the test [start && end && resolution && metrics] takes the
    number 0 for a missing argument (a resolution string and an array are
    truthy). *)
Definition clearCache (svc : MonitorService) (start end_ : option Z)
  (resolution : option Resolution) (metrics : option (list string))
  : MonitorService :=
  match start, end_, resolution, metrics with
  | Some start, Some end_, Some resolution, Some metrics =>
      if negb (start =? 0) && negb (end_ =? 0) then
        let cacheKey := (generateCacheKey start end_ resolution metrics).1 in
        {| cache := delete cacheKey (cache svc);
           cacheExpiry := delete cacheKey (cacheExpiry svc) |}
      else {| cache := ∅; cacheExpiry := ∅ |}
  | _, _, _, _ => {| cache := ∅; cacheExpiry := ∅ |}
  end.

(** *** Calls of [getData] on one thread

    The service together with the calls that are waiting for their fetch and
    the log of the calls of [fetchMetrics]. *)
Record World := {
  svc : MonitorService;
  inflight : list Pending;
  fetchLog : list Pending
}.

Definition new_world (s : MonitorService) : World :=
  {| svc := s; inflight := []; fetchLog := [] |}.

(** A call of [getData] runs to its [await]. *)
Definition call (now : Z) (start end_ : Z) (metrics : list string) (w : World)
  : World * option MetricsResponse :=
  match getData_begin (svc w) now start end_ metrics with
  | CacheHit data => (w, Some data)
  | Awaiting p =>
      ({| svc := svc w; inflight := inflight w ++ [p];
          fetchLog := fetchLog w ++ [p] |}, None)
  end.

(** The promise of the [i]-th waiting call is settled and the call runs to
    its end. *)
Definition settle (random : nat -> Q) (now' : Z) (i : nat) (o : Settled)
  (w : World) : World * option MetricsResponse :=
  match inflight w !! i with
  | Some p =>
      let '(s, data) := run (getData_resume random now' (svc w) p o) in
      ({| svc := s; inflight := delete i (inflight w); fetchLog := fetchLog w |},
       Some data)
  | None => (w, None)
  end.

(** The same with the repository's [fetchMetrics]. *)
Definition settle_fetched (random : nat -> Q) (now' : Z) (i : nat) (w : World)
  : World * option MetricsResponse :=
  match inflight w !! i with
  | Some p => settle random now' i (run (await_fetchMetrics random now' p)) w
  | None => (w, None)
  end.

(** [getInitialData] *)
Definition getInitialData (random : nat -> Q) (now now' : Z) : Rand MetricsResponse :=
  generateInitialData random now now'.

(** [getResolution] *)
Definition getResolution (start end_ : Z) : Resolution :=
  getResolutionForRange start end_.

End MonitorService.

Import MonitorService.

(** ** [src/components/MonitorChart.tsx] *)

Module MonitorChart.

(** A row [[t, value]] of a series handed to the chart ([number[]]). *)
Abbreviation row := (list Q).

(** [a[0] !== b[0]]; the first element of an empty row is [undefined]. *)
Definition first_differs (a b : row) : bool :=
  match head a, head b with
  | Some x, Some y => negb (Qeq_bool x y)
  | None, None => false
  | _, _ => true
  end.

(** [for (let i = 0; i < data.length; i += step) sampledData.push(data[i])]:
    [data !! i] is [Some] exactly when [i < data.length]. *)
Fixpoint sampleLoop (data : list row) (step : nat) (fuel : nat) (i : nat)
  (sampledData : list row) : list row :=
  match fuel with
  | O => sampledData
  | S fuel' =>
      match data !! i with
      | Some r => sampleLoop data step fuel' (i + step) (sampledData ++ [r])
      | None => sampledData
      end
  end.

(** [sampleData].  With [maxPoints = 0] the step is [Infinity] and the loop
    ends after [data[0]], as with any step that is at least the length.  A
    positive step leaves the loop within [data.length] rounds. *)
Definition sampleData (data : list row) (maxPoints : nat) : list row :=
  if (length data <=? maxPoints)%nat then data
  else
    let step :=
      match maxPoints with
      | O => length data
      | _ => Z.to_nat (Math_ceil (ratio (Z.of_nat (length data)) (Z.of_nat maxPoints)))
      end in
    let sampledData := sampleLoop data step (length data) 0 [] in
    match last sampledData, last data with
    | Some s, Some d => if first_differs s d then sampledData ++ [d] else sampledData
    | _, _ => sampledData
    end.

(** *** The debounce of the [dataZoom] handler

    A zoom event is taken where the handler has found its window
    [(startValue, endValue)].  Time is in milliseconds; a pending timer runs
    its callback when it is due. *)

(** A timer set by [setTimeout]: its id (an integer greater than zero), the
    time it is due and the window its callback has captured. *)
Record Timer := {
  timer_id : positive;
  timer_due : Z;
  timer_window : Z * Z
}.

Record Chart := {
  debounceTimerRef : option positive;
  timers : list Timer;
  nextTimerId : positive;
  getDataCalls : list (Z * Z)
}.

(** The component when it is mounted. *)
Definition new_chart : Chart :=
  {| debounceTimerRef := None; timers := []; nextTimerId := 1%positive;
     getDataCalls := [] |}.

(** [clearTimeout(id)]; an id that is not pending is ignored. *)
Definition clearTimeout (id : positive) (c : Chart) : Chart :=
  {| debounceTimerRef := debounceTimerRef c;
     timers := filter (fun tm => timer_id tm ≠ id) (timers c);
     nextTimerId := nextTimerId c;
     getDataCalls := getDataCalls c |}.

(** [setTimeout(func, delay)] at the time [now]. *)
Definition setTimeout (now : Z) (window : Z * Z) (delay : Z) (c : Chart)
  : positive * Chart :=
  (nextTimerId c,
   {| debounceTimerRef := debounceTimerRef c;
      timers := timers c ++ [{| timer_id := nextTimerId c; timer_due := now + delay;
                                timer_window := window |}];
      nextTimerId := Pos.succ (nextTimerId c);
      getDataCalls := getDataCalls c |}).

(** [debounce(func, delay)] *)
Definition debounce (now : Z) (window : Z * Z) (delay : Z) (c : Chart) : Chart :=
  let c :=
    match debounceTimerRef c with
    | Some id => clearTimeout id c
    | None => c
    end in
  let '(id, c) := setTimeout now window delay c in
  {| debounceTimerRef := Some id; timers := timers c;
     nextTimerId := nextTimerId c; getDataCalls := getDataCalls c |}.

(** The callback given to [debounce]:
    [if (startValue && endValue) loadData(startValue, endValue)], where
    [loadData] calls [monitorService.getData] once. *)
Definition callback (window : Z * Z) (c : Chart) : Chart :=
  if negb (window.1 =? 0) && negb (window.2 =? 0) then
    {| debounceTimerRef := debounceTimerRef c; timers := timers c;
       nextTimerId := nextTimerId c;
       getDataCalls := getDataCalls c ++ [window] |}
  else c.

(** The timers due at [now] run, the oldest first. *)
Definition fireDue (now : Z) (c : Chart) : Chart :=
  let due := filter (fun tm => timer_due tm <= now) (timers c) in
  let c := {| debounceTimerRef := debounceTimerRef c;
              timers := filter (fun tm => ¬ timer_due tm <= now) (timers c);
              nextTimerId := nextTimerId c;
              getDataCalls := getDataCalls c |} in
  foldl (fun c tm => callback (timer_window tm) c) c due.

(** A [dataZoom] event with the window [window] at the time [now]. *)
Definition dataZoom (now : Z) (window : Z * Z) (c : Chart) : Chart :=
  debounce now window 200 (fireDue now c).

(** A sequence of zoom events, each with its time. *)
Definition zooms (events : list (Z * (Z * Z))) (c : Chart) : Chart :=
  foldl (fun c e => dataZoom e.1 e.2 c) c events.

(** The times of a burst: each event comes less than [delay] after the one
    before. *)
Fixpoint burst (delay : Z) (t : Z) (events : list (Z * (Z * Z))) : Prop :=
  match events with
  | [] => True
  | e :: events' => t <= e.1 < t + delay /\ burst delay e.1 events'
  end.

(** The cleanup of the effect that runs when the component unmounts:
    [if (debounceTimerRef.current) clearTimeout(debounceTimerRef.current)]. *)
Definition unmount (c : Chart) : Chart :=
  match debounceTimerRef c with
  | Some id => clearTimeout id c
  | None => c
  end.

(** *** The window of a [dataZoom] event

    The fields of the event that the handler reads, [None] for [undefined]:
    with [params.batch] the fields of [params.batch[0]], without it
    [params.start] and [params.end].  A bound that comes from a percentage of
    the axis range need not be an integer: the numbers are rationals here. *)
Inductive ZoomParams :=
| BatchParams (startValue endValue start end_ : option Q)
| PlainParams (start end_ : option Q).

(** The truth value of a number: [undefined], [NaN] and 0 are falsy. *)
Definition truthy (x : option Q) : bool :=
  match x with
  | Some v => negb (Qeq_bool v 0)
  | None => false
  end.

(** The two branches that turn percentages into timestamps.  [axisMin] and
    [axisMax] are [getOption().xAxis[0].min] and [.max], [None] when the
    option, the axis or the field is missing; an undefined percentage makes
    the bound [NaN] ([None]). *)
Definition percentWindow (axisMin axisMax start end_ : option Q)
  : option (option Q * option Q) :=
  match axisMin, axisMax with
  | Some xmin, Some xmax =>
      if truthy (Some xmin) && truthy (Some xmax) then
        let totalRange := (xmax - xmin)%Q in
        Some ((fun pct => xmin + totalRange * pct / 100)%Q <$> start,
              (fun pct => xmin + totalRange * pct / 100)%Q <$> end_)
      else None
  | _, _ => None
  end.

(** The handler up to its call of [debounce]: the window that the timer
    callback captures, or [None] when the handler returns before. *)
Definition zoomWindow (params : ZoomParams) (axisMin axisMax : option Q)
  : option (option Q * option Q) :=
  match params with
  | BatchParams (Some startValue) endValue _ _ => Some (Some startValue, endValue)
  | BatchParams None _ start end_ => percentWindow axisMin axisMax start end_
  | PlainParams start end_ =>
      if truthy start && truthy end_ then percentWindow axisMin axisMax start end_
      else None
  end.

(** The test of the timer callback, [startValue && endValue]: the arguments
    of [loadData], if it is called. *)
Definition loadedWindow (window : option Q * option Q) : option (Q * Q) :=
  match window with
  | (Some startValue, Some endValue) =>
      if truthy (Some startValue) && truthy (Some endValue)
      then Some (startValue, endValue) else None
  | _ => None
  end.

(** *** The data of the component and the series it draws *)

(** The state that [loadData] and the effects set. *)
Record DataState := {
  loading : bool;
  lowResData : option MetricsResponse;
  highResData : option MetricsResponse;
  activeResolution : Resolution
}.

(** The initial values of [useState]. *)
Definition initial_state : DataState :=
  {| loading := false; lowResData := None; highResData := None;
     activeResolution := R1h |}.

(** [loadData] up to its [await]. *)
Definition loadData_begin (st : DataState) : DataState :=
  {| loading := true; lowResData := lowResData st; highResData := highResData st;
     activeResolution := activeResolution st |}.

(** [loadData] from the [await] on; [result] is the series of [getData], or
    [None] when [getData] has thrown (the [catch] only logs). *)
Definition loadData_end (st : DataState) (result : option MetricsResponse) : DataState :=
  let st :=
    match result with
    | Some data =>
        if bool_decide (step data = R1d) || bool_decide (step data = R1h) then
          {| loading := loading st; lowResData := Some data; highResData := None;
             activeResolution := step data |}
        else
          {| loading := loading st; lowResData := None; highResData := Some data;
             activeResolution := step data |}
    | None => st
    end in
  {| loading := false; lowResData := lowResData st; highResData := highResData st;
     activeResolution := activeResolution st |}.

(** The effect of the first load:
    [setLowResData(initialData); setActiveResolution(initialData.step)]. *)
Definition initialLoad (st : DataState) (initialData : MetricsResponse) : DataState :=
  {| loading := loading st; lowResData := Some initialData;
     highResData := highResData st; activeResolution := step initialData |}.

(** What the theme effect and [handleResetZoom] set:
    [setLowResData(initialData); setHighResData(null); setActiveResolution('1h')]. *)
Definition resetToInitial (st : DataState) (initialData : MetricsResponse) : DataState :=
  {| loading := loading st; lowResData := Some initialData; highResData := None;
     activeResolution := R1h |}.

(** The ref of the chart and the state, as the effects read and set them:
    [chartInstanceRef.current] is a chart ([true]) or [null] ([false]). *)
Record Component := {
  chartInstanceRef : bool;
  dataState : DataState
}.

(** The first lines of the chart effect: it returns when the [div] is not
    there ([element] is [chartRef.current] being set), and makes the chart
    when there is none. *)
Definition chartEffect_init (element : bool) (c : Component) : Component :=
  if element then {| chartInstanceRef := true; dataState := dataState c |} else c.

(** The effect of the first load, with the series of its call of
    [getInitialData]. *)
Definition initialLoadEffect (initialData : MetricsResponse) (c : Component)
  : Component :=
  {| chartInstanceRef := chartInstanceRef c;
     dataState := initialLoad (dataState c) initialData |}.

(** The theme effect: when there is a chart it disposes of it, empties the
    ref and resets the data to the series of its own call of
    [getInitialData]. *)
Definition themeEffect (initialData : MetricsResponse) (c : Component) : Component :=
  if chartInstanceRef c then
    {| chartInstanceRef := false;
       dataState := resetToInitial (dataState c) initialData |}
  else c.

(** The effects that run when the component mounts, in the order in which
    the component declares them: the chart effect, the effect of the first
    load, the theme effect (the fourth only adds a listener).  The state
    they leave is the state of the render that follows. *)
Definition mount (element : bool) (initialData initialData' : MetricsResponse)
  : Component :=
  themeEffect initialData'
    (initialLoadEffect initialData
       (chartEffect_init element
          {| chartInstanceRef := false; dataState := initial_state |})).

(** [chartRef.current?.offsetWidth || 800], then
    [Math.min(1000, Math.max(200, chartWidth))]. *)
Definition maxPointsFor (offsetWidth : option Z) : Z :=
  let chartWidth := or_num offsetWidth 800 in
  Z.min 1000 (Z.max 200 chartWidth).

(** [x || 0] on the value that a point holds under a name. *)
Definition or_zero (x : option Q) : Q :=
  match x with
  | Some v => v
  | None => 0%Q
  end.

(** [points.map(point => [point.t, point[metric] || 0])]; a [MetricPoint] has
    its field [t]. *)
Definition rawData (points : list MetricPoint) (metric : string) : list row :=
  (fun point : MetricPoint =>
     [or_zero (point !! ("t"%string)); or_zero (point !! metric)]) <$> points.

(** The fields of a series of the option that depend on the data and on the
    state (the colours and the constant settings are left out). *)
Record Series := {
  series_metric : string;
  series_data : list row;
  series_opacity : Z;
  series_silent : bool
}.

(** The [series] array of the option: the series of [lowResData], then the
    series of [highResData]; [metrics] and [visibleMetrics] are the two arrays
    of the state as they are when the option is built. *)
Definition seriesOf (st : DataState) (metrics visibleMetrics : list string)
  (maxPoints : Z) : list Series :=
  (match lowResData st with
   | Some data =>
       (fun metric =>
          {| series_metric := metric;
             series_data := sampleData (rawData (points data) metric) (Z.to_nat maxPoints);
             series_opacity := if bool_decide (activeResolution st = R1h) then 1 else 0;
             series_silent := negb (bool_decide (metric ∈ visibleMetrics)) |})
       <$> metrics
   | None => []
   end) ++
  (match highResData st with
   | Some data =>
       (fun metric =>
          {| series_metric := metric;
             series_data := sampleData (rawData (points data) metric) (Z.to_nat maxPoints);
             series_opacity := if bool_decide (activeResolution st ≠ R1h) then 1 else 0;
             series_silent := negb (bool_decide (metric ∈ visibleMetrics)) |})
       <$> metrics
   | None => []
   end).

(** *** The legend *)

(** [toUpperCase] and [toLowerCase] on a name made of ASCII characters. *)
Definition ascii_toUpperCase (c : Ascii.ascii) : Ascii.ascii :=
  let n := Ascii.N_of_ascii c in
  if (97 <=? n)%N && (n <=? 122)%N then Ascii.ascii_of_N (n - 32) else c.

Definition ascii_toLowerCase (c : Ascii.ascii) : Ascii.ascii :=
  let n := Ascii.N_of_ascii c in
  if (65 <=? n)%N && (n <=? 90)%N then Ascii.ascii_of_N (n + 32) else c.

Fixpoint string_map (f : Ascii.ascii -> Ascii.ascii) (s : string) : string :=
  match s with
  | EmptyString => EmptyString
  | String c s' => String (f c) (string_map f s')
  end.

Definition toUpperCase : string -> string := string_map ascii_toUpperCase.
Definition toLowerCase : string -> string := string_map ascii_toLowerCase.

(** [legend.data]: [metrics.map(m => m.toUpperCase())]. *)
Definition legendData (metrics : list string) : list string := toUpperCase <$> metrics.

(** The handler of [legendselectchanged]; [selected] is
    [Object.entries(params.selected)], in its order. *)
Definition legendselectchanged (selected : list (string * bool)) : list string :=
  (fun entry => toLowerCase entry.1) <$> filter (fun entry => entry.2 = true) selected.

End MonitorChart.

Import MonitorChart.

(** ** Predicates of the statements *)

(** A value is a percentage. *)
Definition in_range (v : Q) : Prop := (0 <= v /\ v <= 100)%Q.

(** A point generated for the metric list [metrics]: the key ["t"] is there;
    a key is a metric name or ["t"]; the value under a metric name is a
    percentage, and every metric name has a value (but ["__proto__"], which
    a JS object cannot hold as a number). *)
Definition point_ok (metrics : list string) (p : MetricPoint) : Prop :=
  is_Some (p !! ("t"%string)) /\
  (forall key v, p !! key = Some v ->
     (key ∈ metrics /\ in_range v) \/ ((key ∉ metrics) /\ key = "t"%string)) /\
  (forall m, m ∈ metrics -> m ≠ "__proto__"%string -> is_Some (p !! m)).

(** Ten points, one per millisecond. *)
Definition ten_points : list row :=
  (fun i => [inject_Z i; 50%Q]) <$> seqZ 0 10.

(** The rows of a series come with strictly increasing timestamps (the first
    element of a row). *)
Definition increasing_timestamps (data : list row) : Prop :=
  forall (i j : nat) (ri rj : row),
    (i < j)%nat -> data !! i = Some ri -> data !! j = Some rj ->
    exists ti tj : Q, head ri = Some ti /\ head rj = Some tj /\ (ti < tj)%Q.

(** The array that [sort] leaves is sorted. *)
Definition sorted_strings : list string -> Prop :=
  Sorted (fun a b => String.leb a b = true).

(** The second call, made when the fetch of the first has or has not come
    back. *)
Definition two_calls (s : MonitorService) (t1 t2 : Z) (start end_ : Z)
  (metrics : list string) (between : option ((nat -> Q) * Z)) : World :=
  let w1 := (call t1 start end_ metrics (new_world s)).1 in
  let w1' :=
    match between with
    | Some (random, t') => (settle_fetched random t' 0 w1).1
    | None => w1
    end in
  (call t2 start end_ (Array_sort metrics) w1').1.

(** A series to put in the cache. *)
Definition some_series : MetricsResponse := {| step := R30s; points := [] |}.

(** A cache with the entries of two windows, [0 .. 1000] and [5000 .. 9000]. *)
Definition two_entries : MonitorService :=
  {| cache :=
       <[(generateCacheKey 0 1000 R30s ["cpu_1"]%string).1 := some_series]>
         (<[(generateCacheKey 5000 9000 R30s ["cpu_1"]%string).1 := some_series]> ∅);
     cacheExpiry :=
       <[(generateCacheKey 0 1000 R30s ["cpu_1"]%string).1 := 1700000000000]>
         (<[(generateCacheKey 5000 9000 R30s ["cpu_1"]%string).1 := 1700000000000]> ∅) |}.

(** At most one timer is pending, and it is the one the ref holds. *)
Definition armed (c : Chart) : Prop :=
  match timers c with
  | [] => True
  | [tm] => debounceTimerRef c = Some (timer_id tm)
  | _ => False
  end.

(** The timestamps of a series: what each point holds under ["t"]. *)
Definition timestamps (points : list MetricPoint) : list (option Q) :=
  (fun p : MetricPoint => p !! ("t"%string)) <$> points.

(** The window that [generateDataByResolution] uses for the bounds it is
    given. *)
Definition startTimeOf (now : Z) (start : option Z) : Z := or_num start (now - YEAR).
Definition endTimeOf (now : Z) (end_ : option Z) : Z := or_num end_ now.

(** The timestamp of the point of index [i] in a window that starts at [s]
    and lasts [d] ms, cut into [D] steps: [s + i * d / D], rounded. *)
Definition stamp (s d D : Z) (i : Z) : Z := s + (2 * i * d + D) `div` (2 * D).

(** The two dictionaries of the cache hold the same keys. *)
Definition consistent (svc : MonitorService) : Prop :=
  dom (cache svc) = dom (cacheExpiry svc).

(** The order of the strings that [sort] leaves. *)
Definition string_le (a b : string) : Prop := String.leb a b = true.

(** A property of every character of a name. *)
Fixpoint string_forall (P : Ascii.ascii -> Prop) (s : string) : Prop :=
  match s with
  | EmptyString => True
  | String c s' => P c /\ string_forall P s'
  end.

(** An ASCII character that is not an upper-case letter. *)
Definition lower_ascii (c : Ascii.ascii) : Prop :=
  (Ascii.N_of_ascii c < 128)%N /\
  ((65 <=? Ascii.N_of_ascii c)%N && (Ascii.N_of_ascii c <=? 90)%N) = false.

(** A character that is not an upper-case ASCII letter. *)
Definition not_upper (c : Ascii.ascii) : Prop :=
  ((65 <=? Ascii.N_of_ascii c)%N && (Ascii.N_of_ascii c <=? 90)%N) = false.

(** The loads that a sequence of zoom events, each with its time, gives by
    the time [T]: an event loads its window when the next event (or [T], for
    the last one) comes 200 ms after it or later, and neither bound of the
    window is 0. *)
Fixpoint debounced (events : list (Z * (Z * Z))) (T : Z) : list (Z * Z) :=
  match events with
  | [] => []
  | e :: rest =>
      let next := match rest with [] => T | e' :: _ => e'.1 end in
      (if (e.1 + 200 <=? next) && (negb (e.2.1 =? 0) && negb (e.2.2 =? 0))
       then [e.2] else [])
      ++ debounced rest T
  end.

(** The interval from which the base value of a metric is drawn, by the
    family of its name. *)
Definition base_lo (metric : string) : Q :=
  if String.prefix "cpu" metric then 30%Q
  else if String.prefix "gpu" metric then 40%Q
  else if decide (metric = "memory"%string) then 60%Q
  else 50%Q.

Definition base_hi (metric : string) : Q :=
  if String.prefix "cpu" metric then 50%Q
  else if String.prefix "gpu" metric then 70%Q
  else if decide (metric = "memory"%string) then 80%Q
  else 80%Q.

(** The band of the values of a metric: the base interval widened by the
    noise, [0.5 * range + 0.5 * 0.1 * range], and by the rounding to one
    decimal. *)
Definition band_lo (metric : string) : Q :=
  (base_lo metric - (11 # 20) * metricRange metric - (1 # 20))%Q.

Definition band_hi (metric : string) : Q :=
  (base_hi metric + (11 # 20) * metricRange metric + (1 # 20))%Q.

(** * Properties *)

Lemma ge1_ratio (a b : Z) : 0 < b -> ge1 (ratio a b) = (b <=? a).
Proof.
  intros Hb. unfold ge1, ratio.
  destruct (Z.leb_spec b a) as [H|H].
  - apply Qle_bool_iff. apply Qle_shift_div_l.
    + change 0%Q with (inject_Z 0). rewrite <- Zlt_Qlt. lia.
    + rewrite Qmult_1_l. rewrite <- Zle_Qle. lia.
  - apply not_true_is_false. intros Hq. apply Qle_bool_iff in Hq.
    assert (Hlt : (inject_Z a / inject_Z b < 1)%Q).
    { apply Qlt_shift_div_r.
      - change 0%Q with (inject_Z 0). rewrite <- Zlt_Qlt. lia.
      - rewrite Qmult_1_l. rewrite <- Zlt_Qlt. lia. }
    apply Qle_not_lt in Hq. contradiction.
Qed.

Lemma getResolutionForRange_cases (start end_ : Z) :
  getResolutionForRange start end_ =
  if YEAR <=? end_ - start then R1d
  else if MONTH <=? end_ - start then R1h
  else if HOUR <=? end_ - start then R1m
  else R30s.
Proof.
  unfold getResolutionForRange. cbv zeta.
  rewrite !ge1_ratio by lia.
  change (365 * 24 * 60 * 60 * 1000) with YEAR.
  change (30 * 24 * 60 * 60 * 1000) with MONTH.
  change (60 * 60 * 1000) with HOUR.
  change (24 * 60 * 60 * 1000) with DAY.
  destruct (Z.leb_spec YEAR (end_ - start)); [done|].
  destruct (Z.leb_spec MONTH (end_ - start)); [done|].
  destruct (Z.leb_spec DAY (end_ - start)) as [Hd|Hd];
    destruct (Z.leb_spec HOUR (end_ - start)) as [Hh|Hh]; try done.
  unfold DAY, HOUR in *. lia.
Qed.

(** C1. For a window of non-negative duration [d = end - start],
    [getResolutionForRange] returns ['1d'] iff [d >= 365 days], ['1h'] iff
    [30 days <= d < 365 days], ['1m'] iff [1 hour <= d < 30 days], and ['30s']
    iff [0 <= d < 1 hour]; a duration of 0 gives ['30s'], and the durations of
    exactly one hour, 30 days and 365 days give ['1m'], ['1h'] and ['1d']. *)
Theorem getResolutionForRange_thresholds (start end_ : Z) :
  0 <= end_ - start ->
  (getResolutionForRange start end_ = R1d <-> 365 * DAY <= end_ - start) /\
  (getResolutionForRange start end_ = R1h <->
     30 * DAY <= end_ - start < 365 * DAY) /\
  (getResolutionForRange start end_ = R1m <->
     HOUR <= end_ - start < 30 * DAY) /\
  (getResolutionForRange start end_ = R30s <-> 0 <= end_ - start < HOUR) /\
  getResolutionForRange start start = R30s /\
  getResolutionForRange start (start + HOUR) = R1m /\
  getResolutionForRange start (start + 30 * DAY) = R1h /\
  getResolutionForRange start (start + 365 * DAY) = R1d.
Proof.
  intros Hd. rewrite !getResolutionForRange_cases.
  replace (start - start) with 0 by lia.
  replace (start + HOUR - start) with HOUR by lia.
  replace (start + 30 * DAY - start) with (30 * DAY) by lia.
  replace (start + 365 * DAY - start) with (365 * DAY) by lia.
  repeat split; try reflexivity;
    repeat match goal with
           | |- context [?a <=? ?b] => destruct (Z.leb_spec a b)
           | H : context [?a <=? ?b] |- _ => destruct (Z.leb_spec a b)
           end;
    try discriminate; try reflexivity;
    unfold YEAR, MONTH, HOUR, DAY in *; try lia; intros; lia.
Qed.

Lemma getResolutionForRange_thresholds_witness :
  0 <= (1000 + 7 * DAY) - 1000 /\
  (getResolutionForRange 1000 (1000 + 7 * DAY) = R1m <->
   HOUR <= 1000 + 7 * DAY - 1000 < 30 * DAY).
Proof.
  assert (Hd : 0 <= (1000 + 7 * DAY) - 1000) by (unfold DAY; lia).
  split; [exact Hd|].
  exact (proj1 (proj2 (proj2 (getResolutionForRange_thresholds 1000 (1000 + 7 * DAY) Hd)))).
Defined.

(** ** The random-number monad *)

Section RandLemmas.

Variable random : nat -> Q.

Lemma forEach_cons {A S} (x : A) (l : list A) (body : A -> S -> Rand S) s k :
  forEach (x :: l) body s k = forEach l body (body x s k).1 (body x s k).2.
Proof. simpl. unfold mbind, Rand_bind. by destruct (body x s k). Qed.

(** An invariant that follows the elements already visited. *)
Lemma forEach_prefix_inv {A S} (I : list A -> S -> Prop) (body : A -> S -> Rand S)
    (l : list A) :
  (forall l1 x s k, I l1 s -> I (l1 ++ [x]) (body x s k).1) ->
  forall l0 s k, I l0 s -> I (l0 ++ l) (forEach l body s k).1.
Proof.
  intros Hstep. induction l as [|x l IH]; intros l0 s k Hs.
  - by rewrite app_nil_r.
  - rewrite forEach_cons. replace (l0 ++ x :: l) with ((l0 ++ [x]) ++ l)
      by (by rewrite <- app_assoc).
    apply IH. by apply Hstep.
Qed.

Lemma forEach_inv {A S} (I : S -> Prop) (body : A -> S -> Rand S) (l : list A) :
  (forall x s k, I s -> I (body x s k).1) ->
  forall s k, I s -> I (forEach l body s k).1.
Proof.
  intros Hstep s k Hs.
  apply (forEach_prefix_inv (fun _ => I) body l (fun _ => Hstep) [] s k Hs).
Qed.

End RandLemmas.

(** ** Synthesized values *)

Lemma generateRandomValue_range random base range volatility k :
  in_range (generateRandomValue random base range volatility k).1.
Proof.
  unfold generateRandomValue, in_range. simpl. split.
  - apply Q.le_max_l.
  - apply Q.max_lub; [discriminate|]. apply Q.le_min_l.
Qed.

Lemma toFixed1_range (x : Q) : in_range x -> in_range (toFixed1 x).
Proof.
  intros [H0 H100]. unfold toFixed1.
  assert (Hb : Qle_bool 0 x = true) by (by apply Qle_bool_iff).
  rewrite Hb.
  assert (Hlo : 0 <= Qfloor (x * 10 + (1 # 2))).
  { change 0 with (Qfloor 0). apply Qfloor_resp_le.
    apply (Qle_trans _ (x * 10 + 0)%Q).
    - rewrite Qplus_0_r. apply Qmult_le_0_compat; [done | discriminate].
    - apply Qplus_le_r. discriminate. }
  assert (Hhi : Qfloor (x * 10 + (1 # 2)) <= 1000).
  { change 1000 with (Qfloor (100 * 10 + (1 # 2))). apply Qfloor_resp_le.
    apply Qplus_le_l. apply Qmult_le_compat_r; [done | discriminate]. }
  unfold in_range. split.
  - apply Qle_shift_div_l; [reflexivity|]. rewrite Qmult_0_l.
    change 0%Q with (inject_Z 0). by rewrite <- Zle_Qle.
  - apply Qle_shift_div_r; [reflexivity|].
    change (100 * 10)%Q with (inject_Z 1000). by rewrite <- Zle_Qle.
Qed.

Lemma lookup_obj_set (obj : gmap string Q) key v key' :
  obj_set obj key v !! key' =
  if decide (key = "__proto__"%string) then obj !! key'
  else if decide (key = key') then Some v else obj !! key'.
Proof.
  unfold obj_set. destruct (decide (key = "__proto__"%string)); [done|].
  by rewrite lookup_insert.
Qed.

(** One step of the inner loop keeps [point_ok] for the names visited. *)
Lemma pointValue_inv random baseValues visited metric p k :
  point_ok visited p ->
  point_ok (visited ++ [metric]) (pointValue random baseValues metric p k).1.
Proof.
  intros (Ht & Hkeys & Hall). unfold pointValue.
  set (g := generateRandomValue random _ _ _).
  assert (Hv : in_range (toFixed1 (g k).1)).
  { apply toFixed1_range, generateRandomValue_range. }
  unfold mbind, Rand_bind. destruct (g k) as [v k'] eqn:Hg. simpl in *.
  split; [|split].
  - rewrite lookup_obj_set. repeat case_decide; eauto.
  - intros key w. rewrite lookup_obj_set. intros Hw.
    destruct (decide (metric = "__proto__"%string)) as [Hp|Hp].
    + destruct (Hkeys _ _ Hw) as [[? ?]|[? ?]].
      * left. split; [set_solver | done].
      * subst key. right. split; [|done].
        rewrite elem_of_app, list_elem_of_singleton. intros [?|?]; [done|].
        by subst metric.
    + destruct (decide (metric = key)) as [->|Hne].
      * left. split; [set_solver|]. by inversion Hw; subst w.
      * destruct (Hkeys _ _ Hw) as [[? ?]|[? ?]].
        -- left. split; [set_solver | done].
        -- right. split; [|done].
           rewrite elem_of_app, list_elem_of_singleton. intros [?|?]; [done|].
           by subst key.
  - intros m Hm Hne. rewrite lookup_obj_set.
    apply elem_of_app in Hm as [Hm|Hm].
    + repeat case_decide; eauto.
    + apply list_elem_of_singleton in Hm as ->.
      repeat case_decide; try done; eauto.
Qed.

Lemma makePoint_ok random metrics baseValues startTime interval i pts k :
  Forall (point_ok metrics) pts ->
  Forall (point_ok metrics)
    (makePoint random metrics baseValues startTime interval i pts k).1.
Proof.
  intros Hpts. unfold makePoint.
  set (p0 := ({[ "t"%string := _ ]} : MetricPoint)).
  assert (H0 : point_ok [] p0).
  { split; [|split].
    - unfold p0. rewrite lookup_singleton_eq. eauto.
    - intros key v Hkv. right. split; [set_solver|].
      unfold p0 in Hkv. apply lookup_singleton_Some in Hkv as [? _]. done.
    - intros m Hm. set_solver. }
  pose proof (forEach_prefix_inv point_ok (pointValue random baseValues) metrics
                (fun l1 x s k0 => pointValue_inv random baseValues l1 x s k0)
                [] p0 k H0) as Hinv.
  unfold mbind, Rand_bind.
  destruct (forEach metrics (pointValue random baseValues) p0 k) as [p' k'].
  simpl in *. apply Forall_app. split; [done|]. by apply Forall_singleton.
Qed.

Lemma generateDataByResolution_points_ok random now resolution start end_ metrics k :
  Forall (point_ok (default defaultMetricNames metrics))
    (points (generateDataByResolution random now resolution start end_ metrics k).1).
Proof.
  unfold generateDataByResolution. cbv zeta. unfold mbind, Rand_bind.
  destruct (forEach _ (baseValue random) ∅ k) as [baseValues k1].
  match goal with
  | |- context [forEach ?l ?body [] k1] =>
      pose proof (forEach_inv (Forall (point_ok (default defaultMetricNames metrics)))
                    body l
                    (fun x s k0 => makePoint_ok random _ baseValues _ _ x s k0)
                    [] k1 (Forall_nil_2 _)) as Hinv;
      destruct (forEach l body [] k1) as [pts k2]
  end.
  exact Hinv.
Qed.

Lemma makePoint_length random metrics baseValues startTime interval i pts k :
  length (makePoint random metrics baseValues startTime interval i pts k).1
  = S (length pts).
Proof.
  unfold makePoint, mbind, Rand_bind.
  destruct (forEach metrics _ _ k) as [p' k']. simpl.
  rewrite length_app. simpl. lia.
Qed.

(** The loop pushes one point per index: the series has [pointCount] points
    (none when the count is not positive). *)
Lemma generateDataByResolution_length random now resolution start end_ metrics k :
  length (points (generateDataByResolution random now resolution start end_ metrics k).1)
  = Z.to_nat (Z.min (getPointCount (or_num start (now - YEAR)) (or_num end_ now)
                       resolution) 10000).
Proof.
  unfold generateDataByResolution. cbv zeta. unfold mbind, Rand_bind.
  destruct (forEach _ (baseValue random) ∅ k) as [baseValues k1].
  change (365 * 24 * 60 * 60 * 1000) with YEAR.
  set (pc := Z.min _ 10000).
  match goal with
  | |- context [forEach ?l ?body [] k1] =>
      pose proof (forEach_prefix_inv
                    (fun (l1 : list Z) (pts : list MetricPoint) =>
                       length pts = length l1) body l) as Hinv;
      destruct (forEach l body [] k1) as [pts k2] eqn:Hrun
  end.
  simpl. specialize (Hinv (fun l1 x s k0 H =>
    eq_trans (makePoint_length random _ baseValues _ _ x s k0)
             (eq_trans (f_equal S H) (eq_sym (eq_trans (length_app l1 [x])
                                                        (Nat.add_1_r _))))) [] [] k1 eq_refl).
  rewrite Hrun in Hinv. simpl in Hinv. rewrite Hinv. apply length_seqZ.
Qed.

Lemma makePoint_only_t random baseValues startTime interval i pts k :
  Forall (fun p : MetricPoint => exists ts : Z, p = {[ "t"%string := inject_Z ts ]}) pts ->
  Forall (fun p : MetricPoint => exists ts : Z, p = {[ "t"%string := inject_Z ts ]})
    (makePoint random [] baseValues startTime interval i pts k).1.
Proof.
  intros Hpts. unfold makePoint. simpl.
  apply Forall_app. split; [done|]. apply Forall_singleton. eauto.
Qed.

Lemma generateDataByResolution_no_metrics random now resolution start end_ k :
  Forall (fun p : MetricPoint => exists ts : Z, p = {[ "t"%string := inject_Z ts ]})
    (points (generateDataByResolution random now resolution start end_ (Some []) k).1).
Proof.
  unfold generateDataByResolution. cbv zeta. unfold mbind, Rand_bind.
  destruct (forEach _ (baseValue random) ∅ k) as [baseValues k1].
  match goal with
  | |- context [forEach ?l ?body [] k1] =>
      pose proof (forEach_inv
                    (Forall (fun p : MetricPoint =>
                               exists ts : Z, p = {[ "t"%string := inject_Z ts ]}))
                    body l
                    (fun x s k0 => makePoint_only_t random baseValues _ _ x s k0)
                    [] k1 (Forall_nil_2 _)) as Hinv;
      destruct (forEach l body [] k1) as [pts k2]
  end.
  exact Hinv.
Qed.

Lemma fetchMetrics_data random now start end_ metrics resolution k :
  (fetchMetrics random now start end_ metrics resolution k).1.2
  = (generateDataByResolution random now resolution (Some start) (Some end_)
       (Some metrics) (S k)).1.
Proof.
  unfold fetchMetrics, mbind, Rand_bind. simpl.
  by destruct (generateDataByResolution _ _ _ _ _ _ (S k)).
Qed.

(** C8. For every window, resolution and metric list (the empty one too), and
    for every outcome of the random source, each point of the series of
    [generateDataByResolution], and so of [fetchMetrics], holds a value in
    [0, 100] under every metric name; with the empty metric list a point holds
    its timestamp only; a window of one point has its one point, within the
    same bounds. *)
Theorem generateDataByResolution_values_in_range
    (random : nat -> Q) (now : Z) (resolution : Resolution)
    (start end_ : option Z) (metrics : option (list string))
    (start' end' : Z) (metrics' : list string) :
  Forall (point_ok (default defaultMetricNames metrics))
    (points (run (generateDataByResolution random now resolution start end_ metrics)))
  /\ Forall (point_ok metrics')
       (points (run (fetchMetrics random now start' end' metrics' resolution)).2)
  /\ Forall (fun p : MetricPoint => exists ts : Z, p = {[ "t"%string := inject_Z ts ]})
       (points (run (generateDataByResolution random now resolution start end_ (Some []))))
  /\ length (points (run (generateDataByResolution random now resolution start end_ metrics)))
     = Z.to_nat (Z.min (getPointCount (or_num start (now - YEAR)) (or_num end_ now)
                          resolution) 10000).
Proof.
  unfold run. repeat split.
  - apply generateDataByResolution_points_ok.
  - rewrite fetchMetrics_data.
    apply (generateDataByResolution_points_ok random now resolution
             (Some start') (Some end') (Some metrics')).
  - apply generateDataByResolution_no_metrics.
  - apply generateDataByResolution_length.
Qed.

(** ** The render sampler *)

Lemma ceil_ratio_ge (a b : Z) : 0 < b -> a <= Math_ceil (ratio a b) * b.
Proof.
  intros Hb. unfold Math_ceil, ratio.
  pose proof (Qle_ceiling (inject_Z a / inject_Z b)) as Hc.
  assert (Hb' : (0 < inject_Z b)%Q).
  { change 0%Q with (inject_Z 0). by rewrite <- Zlt_Qlt. }
  apply (Qmult_le_compat_r _ _ (inject_Z b)) in Hc; [|by apply Qlt_le_weak].
  assert (Heq : (inject_Z a / inject_Z b * inject_Z b == inject_Z a)%Q).
  { field. intros H0. rewrite H0 in Hb'. by apply Qlt_irrefl in Hb'. }
  rewrite Heq, <- inject_Z_mult, <- Zle_Qle in Hc. exact Hc.
Qed.

Lemma first_differs_refl (r : row) : first_differs r r = false.
Proof.
  unfold first_differs. destruct (head r) as [x|]; [|done].
  by rewrite (proj2 (Qeq_bool_iff x x) (Qeq_refl x)).
Qed.

Section SampleLoop.

Local Open Scope nat_scope.

Variable data : list row.
Variable step : nat.
Hypothesis step_pos : 1 <= step.

Lemma sampleLoop_acc fuel i acc :
  sampleLoop data step fuel i acc = acc ++ sampleLoop data step fuel i [].
Proof.
  revert i acc. induction fuel as [|fuel IH]; intros i acc; simpl.
  - by rewrite app_nil_r.
  - destruct (data !! i) as [r|]; [|by rewrite app_nil_r].
    rewrite (IH _ (acc ++ [r])), (IH _ [r]). by rewrite <- app_assoc.
Qed.

Lemma sampleLoop_S fuel i r :
  data !! i = Some r ->
  sampleLoop data step (S fuel) i [] = r :: sampleLoop data step fuel (i + step) [].
Proof. intros Hr. simpl. rewrite Hr. by rewrite sampleLoop_acc. Qed.

Lemma sampleLoop_None fuel i :
  data !! i = None -> sampleLoop data step fuel i [] = [].
Proof. intros Hr. destruct fuel; simpl; [done|]. by rewrite Hr. Qed.

(** The fuel [length data] is enough: more fuel gives the same list. *)
Lemma sampleLoop_enough_fuel fuel fuel' i :
  length data <= i + fuel -> fuel <= fuel' ->
  sampleLoop data step fuel' i [] = sampleLoop data step fuel i [].
Proof.
  revert fuel' i. induction fuel as [|fuel IH]; intros fuel' i Hn Hf.
  - rewrite !sampleLoop_None; [done|..]; apply lookup_ge_None; lia.
  - destruct fuel' as [|fuel']; [lia|].
    destruct (data !! i) as [r|] eqn:Hr.
    + rewrite !(sampleLoop_S _ _ r) by done. f_equal. apply IH; lia.
    + by rewrite !sampleLoop_None.
Qed.

Lemma sampleLoop_sublist fuel i :
  sampleLoop data step fuel i [] `sublist_of` drop i data.
Proof.
  revert i. induction fuel as [|fuel IH]; intros i; [apply sublist_nil_l|].
  destruct (data !! i) as [r|] eqn:Hr.
  - rewrite (sampleLoop_S _ _ r), (drop_S _ _ _ Hr) by done.
    apply sublist_skip. etrans; [apply IH|].
    replace (i + step) with (S i + (step - 1)) by lia.
    rewrite <- drop_drop. apply sublist_drop.
  - rewrite sampleLoop_None by done. apply sublist_nil_l.
Qed.

(** The sampled points all come before the last point, or the last one of
    them is the last point. *)
Lemma sampleLoop_last fuel i :
  let l := sampleLoop data step fuel i [] in
  l `sublist_of` drop i (take (length data - 1) data)
  \/ (l ≠ [] /\ last l = last data).
Proof.
  revert i. induction fuel as [|fuel IH]; intros i; simpl.
  { left. apply sublist_nil_l. }
  destruct (data !! i) as [r|] eqn:Hr; [|left; apply sublist_nil_l].
  rewrite sampleLoop_acc. simpl.
  pose proof (lookup_lt_Some _ _ _ Hr) as Hi.
  destruct (IH (i + step)) as [Hsub|[Hne Hlast]].
  - destruct (decide (i < length data - 1)) as [Hlt|Hge].
    + left. rewrite (drop_S _ r i) by (by rewrite lookup_take_lt).
      apply sublist_skip. etrans; [apply Hsub|].
      replace (i + step) with (S i + (step - 1)) by lia.
      rewrite <- drop_drop. apply sublist_drop.
    + right. split; [done|].
      rewrite drop_ge in Hsub by (rewrite length_take; lia).
      apply sublist_nil_r in Hsub. rewrite Hsub. simpl.
      rewrite last_lookup. replace (pred (length data)) with i by lia. done.
  - right. split; [done|]. rewrite last_cons.
    destruct (last (sampleLoop data step fuel (i + step) [])) eqn:Hl.
    + done.
    + apply last_None in Hl. done.
Qed.

Lemma sampleLoop_length fuel i :
  length (sampleLoop data step fuel i []) * step <= (length data - i) + (step - 1).
Proof.
  revert i. induction fuel as [|fuel IH]; intros i; simpl; [lia|].
  destruct (data !! i) as [r|] eqn:Hr; [|simpl; lia].
  rewrite sampleLoop_acc. simpl.
  pose proof (lookup_lt_Some _ _ _ Hr) as Hi.
  specialize (IH (i + step)).
  set (len := length (sampleLoop data step fuel (i + step) [])) in *.
  destruct (le_lt_dec (i + step) (length data)) as [Hle|Hgt]; [lia|].
  assert (len = 0) as -> by nia. lia.
Qed.

Lemma sampleLoop_head fuel r :
  data !! 0 = Some r -> head (sampleLoop data step (S fuel) 0 []) = Some r.
Proof. intros Hr. by rewrite (sampleLoop_S _ _ r). Qed.

End SampleLoop.

Lemma sampleData_small (data : list row) (maxPoints : nat) :
  (length data <= maxPoints)%nat -> sampleData data maxPoints = data.
Proof.
  intros Hle. unfold sampleData.
  by rewrite (proj2 (Nat.leb_le _ _) Hle).
Qed.

(** Above the budget the function is the strided loop, with a step of at
    least 1 that covers the list in [maxPoints] strides, and then the test of
    the last point. *)
Lemma sampleData_large (data : list row) (maxPoints : nat) :
  (1 <= maxPoints)%nat -> (maxPoints < length data)%nat ->
  exists step : nat,
    (1 <= step)%nat /\ (length data <= step * maxPoints)%nat /\
    sampleData data maxPoints =
      let sampledData := sampleLoop data step (length data) 0 [] in
      match last sampledData, last data with
      | Some s, Some d => if first_differs s d then sampledData ++ [d] else sampledData
      | _, _ => sampledData
      end.
Proof.
  intros Hm Hn. unfold sampleData.
  rewrite (proj2 (Nat.leb_gt _ _)) by lia.
  destruct maxPoints as [|m]; [lia|].
  set (step := Z.to_nat _).
  exists step. split; [|split]; [| |done].
  - pose proof (ceil_ratio_ge (Z.of_nat (length data)) (Z.of_nat (S m))) as Hc.
    unfold step. nia.
  - pose proof (ceil_ratio_ge (Z.of_nat (length data)) (Z.of_nat (S m))) as Hc.
    unfold step. nia.
Qed.

(** C4 (the claim as stated fails).  Ten points with a budget of five: the
    stride 2 keeps five points, the last point is appended, and the result has
    six points. *)
Lemma sampleData_exceeds_maxPoints :
  ~ (forall (data : list row) (maxPoints : nat),
       (1 <= maxPoints)%nat ->
       ((length data <= maxPoints)%nat -> sampleData data maxPoints = data) /\
       ((maxPoints < length data)%nat ->
        (length (sampleData data maxPoints) <= maxPoints)%nat)).
Proof.
  intros H. destruct (H ten_points 5%nat) as [_ Hlen]; [lia|].
  assert (Hgt : (5 < length ten_points)%nat) by (vm_compute; lia).
  specialize (Hlen Hgt). vm_compute in Hlen. lia.
Qed.

(** C4 (amended).  For every list of points and every [maxPoints >= 1]: a
    list of at most [maxPoints] points is returned unchanged; otherwise the
    result has at most [maxPoints + 1] points (at most [maxPoints] from the
    stride and the last point when it is appended). *)
Theorem sampleData_length (data : list row) (maxPoints : nat) :
  (1 <= maxPoints)%nat ->
  ((length data <= maxPoints)%nat -> sampleData data maxPoints = data) /\
  ((maxPoints < length data)%nat ->
   (length (sampleData data maxPoints) <= maxPoints + 1)%nat).
Proof.
  intros Hm. split; [apply sampleData_small|]. intros Hn.
  destruct (sampleData_large data maxPoints Hm Hn) as (step & Hstep & Hcover & ->).
  cbv zeta.
  pose proof (sampleLoop_length data step Hstep (length data) 0) as Hlen.
  set (sampledData := sampleLoop data step (length data) 0 []) in *.
  assert (Hs : (length sampledData <= maxPoints)%nat) by nia.
  destruct (last sampledData) as [s|]; [|lia].
  destruct (last data) as [d|]; [|lia].
  destruct (first_differs s d); [|lia].
  rewrite length_app. simpl. lia.
Qed.

Lemma sampleData_length_witness :
  (1 <= 5)%nat /\ (5 < length ten_points)%nat /\
  (length (sampleData ten_points 5) <= 5 + 1)%nat.
Proof.
  assert (Hm : (1 <= 5)%nat) by lia.
  assert (Hn : (5 < length ten_points)%nat) by (vm_compute; lia).
  split; [exact Hm|]. split; [exact Hn|].
  exact (proj2 (sampleData_length ten_points 5 Hm) Hn).
Defined.

(** For every non-empty list of rows and every [maxPoints >= 1], the result
    of [sampleData] is a subsequence of the input, its first row is the first
    row of the input and its last row has the timestamp of the last row of
    the input (the test before the append compares timestamps); its last row
    is the last row of the input when no earlier row has that timestamp. *)
Lemma sampleData_sublist_endpoints (data : list row) (maxPoints : nat) :
  data ≠ [] -> (1 <= maxPoints)%nat ->
  sampleData data maxPoints `sublist_of` data /\
  head (sampleData data maxPoints) = head data /\
  (exists s d, last (sampleData data maxPoints) = Some s /\ last data = Some d /\
               first_differs s d = false) /\
  ((forall (j : nat) r d, (j < length data - 1)%nat -> data !! j = Some r ->
      last data = Some d -> first_differs r d = true) ->
   last (sampleData data maxPoints) = last data).
Proof.
  intros Hne Hm.
  destruct (last data) as [d|] eqn:Hd; [|by apply last_None in Hd].
  destruct (le_lt_dec (length data) maxPoints) as [Hle|Hgt].
  { rewrite sampleData_small by done. repeat split; try done.
    exists d, d. by rewrite first_differs_refl. }
  destruct (sampleData_large data maxPoints Hm Hgt) as (step & Hstep & _ & ->).
  cbv zeta.
  destruct data as [|r0 data'] eqn:Hdata; [done|]. rewrite <- Hdata in *.
  assert (Hr0 : data !! 0%nat = Some r0) by (by rewrite Hdata).
  assert (Hlen : length data = S (length data')) by (by rewrite Hdata).
  pose proof (sampleLoop_sublist data step Hstep (length data) 0) as Hsub.
  pose proof (sampleLoop_last data step Hstep (length data) 0) as Hlast.
  pose proof (sampleLoop_head data step (length data') r0 Hr0) as Hhead.
  rewrite <- Hlen in Hhead. rewrite drop_0 in Hsub, Hlast. cbv zeta in Hlast.
  set (sampledData := sampleLoop data step (length data) 0 []) in *.
  assert (Hhd : head data = Some r0) by (by rewrite Hdata).
  destruct (last sampledData) as [s|] eqn:Hs.
  2:{ apply last_None in Hs. rewrite Hs in Hhead. done. }
  apply last_Some in Hd as Hsplit. destruct Hsplit as [front Hfront].
  assert (Htake : take (length data - 1) data = front).
  { rewrite Hfront, length_app. simpl.
    replace (length front + 1 - 1)%nat with (length front) by lia.
    by rewrite take_app_length. }
  rewrite Htake in Hlast. rewrite Hd.
  destruct (first_differs s d) eqn:Hsd.
  - (* the last point is appended *)
    assert (Hfr : sampledData `sublist_of` front).
    { destruct Hlast as [?|[_ Hl]]; [done|].
      rewrite ?Hs, Hd in Hl. inversion Hl; subst s.
      by rewrite first_differs_refl in Hsd. }
    repeat split.
    + assert (Happ : sampledData ++ [d] `sublist_of` front ++ [d])
        by (by apply sublist_app).
      by rewrite <- Hfront in Happ.
    + rewrite Hhd. destruct sampledData; [done|]. done.
    + exists d, d. rewrite last_snoc. by rewrite first_differs_refl.
    + intros _. by rewrite last_snoc.
  - repeat split; try done.
    + by rewrite Hhd.
    + by exists s, d.
    + intros Hdistinct. rewrite Hs.
      destruct Hlast as [Hfr|[_ Hl]]; [|by rewrite ?Hs, Hd in Hl].
      assert (Hin : s ∈ front).
      { eapply elem_of_sublist; [|exact Hfr]. by apply last_Some_elem_of. }
      apply list_elem_of_lookup in Hin as [j Hj].
      pose proof (lookup_lt_Some _ _ _ Hj) as Hjlt.
      assert (Hj' : data !! j = Some s).
      { rewrite Hfront. by rewrite lookup_app_l. }
      assert (Hjn : (j < length data - 1)%nat).
      { rewrite Hfront at 1. rewrite length_app. simpl. lia. }
      rewrite (Hdistinct j s d Hjn Hj' eq_refl) in Hsd. discriminate.
Qed.

(** C5.  For every non-empty list of rows whose timestamps increase strictly,
    as they do in the rows that the chart makes from a generated series and
    hands to [sampleData] (lemma [rawData_increasing_timestamps] below), and
    every [maxPoints >= 1]: the result of [sampleData] keeps the order of the
    input (it is a subsequence of it), its first row is the first row of the
    input and its last row is the last row of the input. *)
Theorem sampleData_order_endpoints (data : list row) (maxPoints : nat) :
  data ≠ [] -> (1 <= maxPoints)%nat -> increasing_timestamps data ->
  sampleData data maxPoints `sublist_of` data /\
  head (sampleData data maxPoints) = head data /\
  last (sampleData data maxPoints) = last data.
Proof.
  intros Hne Hm Hinc.
  destruct (sampleData_sublist_endpoints data maxPoints Hne Hm)
    as (Hsub & Hhd & _ & Hlast).
  split; [exact Hsub|]. split; [exact Hhd|]. apply Hlast.
  intros j r d Hj Hr Hd. rewrite last_lookup in Hd.
  assert (Hjl : (j < pred (length data))%nat) by lia.
  destruct (Hinc j (pred (length data)) r d Hjl Hr Hd) as (tj & tl & Htj & Htl & Hlt).
  unfold first_differs. rewrite Htj, Htl.
  destruct (Qeq_bool tj tl) eqn:Heq; [|done].
  apply Qeq_bool_iff in Heq. rewrite Heq in Hlt. by apply Qlt_irrefl in Hlt.
Qed.

Lemma sampleData_order_endpoints_witness :
  sampleData ten_points 5 `sublist_of` ten_points /\
  head (sampleData ten_points 5) = head ten_points /\
  last (sampleData ten_points 5) = last ten_points.
Proof.
  apply (sampleData_order_endpoints ten_points 5).
  - vm_compute. discriminate.
  - lia.
  - intros i j ri rj Hij Hi Hj. unfold ten_points in Hi, Hj.
    rewrite list_lookup_fmap in Hi, Hj.
    destruct (seqZ 0 10 !! i) as [zi|] eqn:Hzi; [|discriminate].
    destruct (seqZ 0 10 !! j) as [zj|] eqn:Hzj; [|discriminate].
    apply lookup_seqZ in Hzi as [-> _]. apply lookup_seqZ in Hzj as [-> _].
    simpl in Hi, Hj. inversion Hi; subst ri. inversion Hj; subst rj.
    exists (inject_Z (0 + Z.of_nat i)), (inject_Z (0 + Z.of_nat j)).
    split; [reflexivity|]. split; [reflexivity|].
    rewrite <- Zlt_Qlt. lia.
Defined.

(** ** The number of points of a window *)

Lemma or_num_nonzero (x d : Z) : x ≠ 0 -> or_num (Some x) d = x.
Proof. intros Hx. simpl. by rewrite (proj2 (Z.eqb_neq x 0) Hx). Qed.

Lemma or_num_zero (d : Z) : or_num (Some 0) d = d.
Proof. reflexivity. Qed.

Lemma or_num_default (d : Z) : or_num (Some d) d = d.
Proof. simpl. by destruct (d =? 0). Qed.

(** C6 (the claim as stated fails).  The two years that end at
    1 700 000 000 000 ms: one point per day makes 730 points, not 365. *)
Lemma two_years_not_365_points :
  ~ (forall (random : nat -> Q) (now start end_ : Z) (metrics : option (list string)),
       end_ - start = 2 * (365 * DAY) ->
       getResolutionForRange start end_ = R1d /\
       length (points (run (generateDataByResolution random now
                              (getResolutionForRange start end_)
                              (Some start) (Some end_) metrics))) = 365%nat).
Proof.
  intros H.
  destruct (H (fun _ => 0%Q) 1700000000000 (1700000000000 - 2 * (365 * DAY))
              1700000000000 (Some [])) as [_ Hlen]; [lia|].
  unfold run in Hlen. rewrite generateDataByResolution_length in Hlen.
  vm_compute in Hlen. lia.
Qed.

(** C6 (amended).  For a window of exactly 2 x 365 days whose bounds are not
    0, the resolution is ['1d'] and the series has exactly 730 points, one per
    day; the cap of 10 000 points is not reached. *)
Theorem two_years_730_points
    (random : nat -> Q) (now start end_ : Z) (metrics : option (list string)) :
  end_ - start = 2 * (365 * DAY) -> start ≠ 0 -> end_ ≠ 0 ->
  getResolutionForRange start end_ = R1d /\
  getPointCount start end_ R1d = 730 /\
  getPointCount start end_ R1d < 10000 /\
  length (points (run (generateDataByResolution random now
                         (getResolutionForRange start end_)
                         (Some start) (Some end_) metrics))) = 730%nat.
Proof.
  intros Hd Hs He.
  assert (Hres : getResolutionForRange start end_ = R1d).
  { rewrite getResolutionForRange_cases, Hd. reflexivity. }
  assert (Hpc : getPointCount start end_ R1d = 730).
  { unfold getPointCount. cbv zeta. rewrite Hd. reflexivity. }
  repeat split; [done|done|lia|].
  unfold run. rewrite generateDataByResolution_length.
  rewrite !or_num_nonzero by done. rewrite Hres, Hpc. reflexivity.
Qed.

Lemma two_years_730_points_witness :
  1700000000000 - (1700000000000 - 2 * (365 * DAY)) = 2 * (365 * DAY) /\
  length (points (run (generateDataByResolution (fun _ => 0%Q) 1700000000000
                         (getResolutionForRange (1700000000000 - 2 * (365 * DAY))
                            1700000000000)
                         (Some (1700000000000 - 2 * (365 * DAY)))
                         (Some 1700000000000) None))) = 730%nat.
Proof.
  split; [reflexivity|].
  apply (two_years_730_points (fun _ => 0%Q) 1700000000000
           (1700000000000 - 2 * (365 * DAY)) 1700000000000 None);
    [reflexivity | discriminate | discriminate].
Defined.

(** ** A window bound that is 0 *)

Lemma Math_round_int (z : Z) (q : Q) : Math_round (inject_Z z + inject_Z 0 * q) = z.
Proof.
  unfold Math_round.
  assert (Heq : (inject_Z z + inject_Z 0 * q + (1 # 2) == (2 * z + 1) # 2)%Q).
  { assert (H1 : (inject_Z z + inject_Z 0 * q + (1 # 2) == inject_Z z + (1 # 2))%Q).
    { change (inject_Z 0) with 0%Q. ring. }
    rewrite H1. unfold Qeq, Qplus, inject_Z. cbn -[Z.mul Z.add]. lia. }
  rewrite Heq. unfold Qfloor. symmetry. apply Z.div_unique with (r := 1); lia.
Qed.

(** The metric loop leaves the timestamp alone unless a metric is named
    ["t"]. *)
Lemma pointValues_keep_t random baseValues metrics (p : MetricPoint) ts k :
  "t"%string ∉ metrics -> p !! ("t"%string) = Some ts ->
  (forEach metrics (pointValue random baseValues) p k).1 !! ("t"%string) = Some ts.
Proof.
  intros Hnotin Hp.
  pose proof (forEach_prefix_inv
                (fun (visited : list string) (p' : MetricPoint) =>
                   "t"%string ∉ visited -> p' !! ("t"%string) = Some ts)
                (pointValue random baseValues) metrics) as Hinv.
  apply (Hinv) with (l0 := []) (s := p) (k := k); [|done|done].
  intros l1 x s k0 IH Hx. unfold pointValue, mbind, Rand_bind.
  destruct (generateRandomValue _ _ _ _ k0) as [v k']. simpl.
  rewrite lookup_obj_set.
  apply not_elem_of_app in Hx as [Hl1 Hx1]. apply not_elem_of_cons in Hx1 as [Hx1 _].
  repeat case_decide; first [by apply IH | naive_solver].
Qed.

Lemma makePoint_head random metrics baseValues startTime interval i pts k p0 :
  head pts = Some p0 ->
  head (makePoint random metrics baseValues startTime interval i pts k).1 = Some p0.
Proof.
  intros Hh. unfold makePoint, mbind, Rand_bind.
  destruct (forEach metrics _ _ k) as [p' k']. simpl.
  by destruct pts.
Qed.

Lemma makePoint_nil random metrics baseValues startTime interval i k :
  (makePoint random metrics baseValues startTime interval i [] k).1
  = [(forEach metrics (pointValue random baseValues)
        {[ "t"%string := inject_Z (Math_round (inject_Z startTime + inject_Z i * interval)) ]}
        k).1].
Proof.
  unfold makePoint, mbind, Rand_bind. by destruct (forEach metrics _ _ k).
Qed.

(** The first point of a series lies at the start of the window that was
    used. *)
Lemma generateDataByResolution_first_timestamp
    random now resolution start end_ metrics k p0 :
  "t"%string ∉ default defaultMetricNames metrics ->
  head (points (generateDataByResolution random now resolution start end_ metrics k).1)
    = Some p0 ->
  p0 !! ("t"%string) = Some (inject_Z (or_num start (now - YEAR))).
Proof.
  intros Ht. unfold generateDataByResolution. cbv zeta. unfold mbind, Rand_bind.
  destruct (forEach _ (baseValue random) ∅ k) as [baseValues k1].
  change (365 * 24 * 60 * 60 * 1000) with YEAR.
  set (startTime := or_num start (now - YEAR)).
  set (pc := Z.min _ 10000). set (interval := ratio _ _).
  destruct (decide (0 < pc)) as [Hpc|Hpc].
  2:{ rewrite seqZ_nil by lia. simpl. done. }
  rewrite seqZ_cons by done. rewrite forEach_cons.
  set (first := makePoint random _ baseValues startTime interval 0 [] k1).
  set (p1 := (forEach (default defaultMetricNames metrics) (pointValue random baseValues)
                {[ "t"%string := inject_Z startTime ]} k1).1).
  assert (Hfirst : head first.1 = Some p1).
  { unfold first. rewrite makePoint_nil, Math_round_int. done. }
  match goal with
  | |- context [forEach ?l ?body first.1 first.2] =>
      pose proof (forEach_inv (fun pts => head pts = Some p1) body l
                    (fun x s k0 H => makePoint_head random _ baseValues _ _ x s k0 p1 H)
                    first.1 first.2 Hfirst) as Hinv;
      destruct (forEach l body first.1 first.2) as [pts k2]
  end.
  simpl in *. rewrite Hinv. intros [= <-].
  unfold p1. apply pointValues_keep_t; [done|]. apply lookup_singleton_eq.
Qed.

Lemma ceil_ratio_lt (a b : Z) : 0 < b -> (Math_ceil (ratio a b) - 1) * b < a.
Proof.
  intros Hb. unfold Math_ceil, ratio.
  pose proof (Qceiling_lt (inject_Z a / inject_Z b)) as Hc.
  assert (Hb' : (0 < inject_Z b)%Q).
  { change 0%Q with (inject_Z 0). by rewrite <- Zlt_Qlt. }
  apply (Qmult_lt_compat_r _ _ (inject_Z b)) in Hc; [|done].
  assert (Heq : (inject_Z a / inject_Z b * inject_Z b == inject_Z a)%Q).
  { field. intros H0. rewrite H0 in Hb'. by apply Qlt_irrefl in Hb'. }
  rewrite Heq, <- inject_Z_mult, <- Zlt_Qlt in Hc. exact Hc.
Qed.

Lemma ceil_ratio_gt_iff (a b n : Z) :
  0 < b -> (n < Math_ceil (ratio a b) <-> n * b < a).
Proof.
  intros Hb.
  pose proof (ceil_ratio_ge a b Hb). pose proof (ceil_ratio_lt a b Hb).
  split; intros; nia.
Qed.

Lemma RESOLUTION_INTERVALS_pos (r : Resolution) : 0 < RESOLUTION_INTERVALS r.
Proof. by destruct r. Qed.

Lemma getPointCount_eq (start end_ : Z) (r : Resolution) :
  getPointCount start end_ r = Math_ceil (ratio (end_ - start) (RESOLUTION_INTERVALS r)).
Proof. by destruct r. Qed.

Lemma getPointCount_pos_iff (start end_ : Z) (r : Resolution) :
  0 < getPointCount start end_ r <-> start < end_.
Proof.
  rewrite getPointCount_eq, ceil_ratio_gt_iff by apply RESOLUTION_INTERVALS_pos. lia.
Qed.

(** The timestamp of the point of index [i], as an integer quotient. *)
Lemma Math_round_ratio (s i d D : Z) :
  0 < D ->
  Math_round (inject_Z s + inject_Z i * ratio d D) = s + (2 * i * d + D) `div` (2 * D).
Proof.
  intros HD. unfold Math_round, ratio.
  assert (HD' : ¬ (inject_Z D == 0)%Q).
  { change 0%Q with (inject_Z 0). rewrite inject_Z_injective. lia. }
  assert (Heq : (inject_Z s + inject_Z i * (inject_Z d / inject_Z D) + (1 # 2)
                 == inject_Z (s * (2 * D) + (2 * i * d + D)) / inject_Z (2 * D))%Q).
  { rewrite !inject_Z_plus, !inject_Z_mult. change (inject_Z 2) with 2%Q.
    field. done. }
  rewrite (Qfloor_comp _ _ Heq), <- Zdiv_Qdiv, Z.div_add_l by lia. done.
Qed.

Lemma timestamps_app (pts : list MetricPoint) (p : MetricPoint) :
  timestamps (pts ++ [p]) = timestamps pts ++ [p !! ("t"%string)].
Proof. unfold timestamps. by rewrite fmap_app. Qed.

Lemma makePoint_timestamps random metrics baseValues startTime interval i pts k :
  "t"%string ∉ metrics ->
  timestamps (makePoint random metrics baseValues startTime interval i pts k).1
  = timestamps pts
    ++ [Some (inject_Z (Math_round (inject_Z startTime + inject_Z i * interval)))].
Proof.
  intros Ht. unfold makePoint, mbind, Rand_bind.
  match goal with
  | |- context [forEach metrics ?body ?p0 k] =>
      pose proof (pointValues_keep_t random baseValues metrics p0 _ k Ht
                    (lookup_singleton_eq _ _)) as Hkeep;
      destruct (forEach metrics body p0 k) as [p' k']
  end.
  simpl in *. by rewrite timestamps_app, Hkeep.
Qed.

(** The timestamps do not depend on the random draws. *)
Lemma generateDataByResolution_timestamps_eq
    random now resolution start end_ metrics k :
  "t"%string ∉ default defaultMetricNames metrics ->
  let startTime := startTimeOf now start in
  let endTime := endTimeOf now end_ in
  let pointCount := Z.min (getPointCount startTime endTime resolution) 10000 in
  let D := if pointCount - 1 =? 0 then 1 else pointCount - 1 in
  timestamps (points (generateDataByResolution random now resolution start end_
                        metrics k).1)
  = (fun i => Some (inject_Z (Math_round
               (inject_Z startTime + inject_Z i * ratio (endTime - startTime) D))))
    <$> seqZ 0 pointCount.
Proof.
  intros Ht. unfold generateDataByResolution, startTimeOf, endTimeOf. cbv zeta.
  unfold mbind, Rand_bind.
  destruct (forEach _ (baseValue random) ∅ k) as [baseValues k1].
  change (365 * 24 * 60 * 60 * 1000) with YEAR.
  set (startTime := or_num start (now - YEAR)). set (endTime := or_num end_ now).
  set (pc := Z.min _ 10000). set (interval := ratio _ _).
  match goal with
  | |- context [forEach ?l ?body [] k1] =>
      pose proof (forEach_prefix_inv
                    (fun (l1 : list Z) (pts : list MetricPoint) =>
                       timestamps pts
                       = (fun i => Some (inject_Z (Math_round
                            (inject_Z startTime + inject_Z i * interval)))) <$> l1)
                    body l) as Hinv;
      destruct (forEach l body [] k1) as [pts k2] eqn:Hrun
  end.
  simpl. specialize (Hinv (fun l1 x s k0 H =>
    eq_trans (makePoint_timestamps random _ baseValues _ _ x s k0 Ht)
             (eq_trans (f_equal (fun l => l ++ [_]) H) (eq_sym (fmap_app _ l1 [x]))))
    [] [] k1 eq_refl).
  by rewrite Hrun in Hinv.
Qed.

Section Spacing.

(** A window of [d > 0] ms cut into [D] steps, with [1 <= D <= d]. *)
Variables s d D : Z.
Local Abbreviation stamp := (stamp s d D).
Hypothesis d_pos : 0 < d.
Hypothesis D_pos : 0 < D.
Hypothesis D_le : D <= d.

Lemma stamp_first : stamp 0 = s.
Proof. unfold stamp. rewrite Z.div_small by lia. lia. Qed.

Lemma stamp_last : stamp D = s + d.
Proof.
  unfold stamp. replace (2 * D * d + D) with (D + d * (2 * D)) by lia.
  rewrite Z.div_add, Z.div_small by lia. lia.
Qed.

Lemma stamp_lt (i j : Z) : 0 <= i -> i < j -> stamp i < stamp j.
Proof.
  intros Hi Hij. unfold stamp.
  assert (H : (2 * i * d + D) `div` (2 * D) + 1 <= (2 * j * d + D) `div` (2 * D)).
  { rewrite <- (Z.div_add _ 1) by lia. apply Z.div_le_mono; [lia|]. nia. }
  lia.
Qed.

Lemma stamp_bounds (i : Z) : 0 <= i <= D -> s <= stamp i <= s + d.
Proof.
  intros Hi. unfold stamp.
  assert (0 <= (2 * i * d + D) `div` (2 * D)) by (apply Z.div_pos; nia).
  assert ((2 * i * d + D) `div` (2 * D) < d + 1)
    by (apply Z.div_lt_upper_bound; nia).
  lia.
Qed.

End Spacing.

(** For integer bounds and no metric named ["t"], the timestamps of a series
    increase strictly from the start of the window it uses to its end. *)
Lemma generateDataByResolution_stamps
    (random : nat -> Q) (now : Z) (resolution : Resolution)
    (start end_ : option Z) (metrics : option (list string)) :
  "t"%string ∉ default defaultMetricNames metrics ->
  exists ts : list Z,
    timestamps (points (run (generateDataByResolution random now resolution
                               start end_ metrics)))
    = (fun t => Some (inject_Z t)) <$> ts /\
    (forall (i j : nat) (ti tj : Z),
       (i < j)%nat -> ts !! i = Some ti -> ts !! j = Some tj -> ti < tj) /\
    Forall (fun t => startTimeOf now start <= t <= endTimeOf now end_) ts /\
    (ts ≠ [] -> head ts = Some (startTimeOf now start)) /\
    ((2 <= length ts)%nat -> last ts = Some (endTimeOf now end_)).
Proof.
  intros Ht. unfold run.
  rewrite (generateDataByResolution_timestamps_eq _ _ _ _ _ _ _ Ht). cbv zeta.
  set (s := startTimeOf now start). set (e := endTimeOf now end_).
  set (pc := Z.min (getPointCount s e resolution) 10000).
  set (D := if pc - 1 =? 0 then 1 else pc - 1).
  exists (stamp s (e - s) D <$> seqZ 0 pc).
  destruct (decide (0 < pc)) as [Hpc|Hpc].
  2:{ rewrite seqZ_nil by lia. simpl. split; [done|].
      split; [by intros i j ti tj _ Hi|]. split; [constructor|].
      split; [done|]. simpl. lia. }
  assert (Hd : 0 < e - s).
  { pose proof (getPointCount_pos_iff s e resolution). lia. }
  assert (HD : 0 < D) by (unfold D; destruct (Z.eqb_spec (pc - 1) 0); lia).
  assert (HDle : D <= e - s).
  { unfold D. destruct (Z.eqb_spec (pc - 1) 0); [lia|].
    pose proof (ceil_ratio_lt (e - s) (RESOLUTION_INTERVALS resolution)
                  (RESOLUTION_INTERVALS_pos _)) as Hc.
    rewrite <- getPointCount_eq in Hc.
    pose proof (RESOLUTION_INTERVALS_pos resolution). nia. }
  assert (Hidx : forall i, 0 <= i < pc -> 0 <= i <= D).
  { intros i Hi. unfold D. destruct (Z.eqb_spec (pc - 1) 0); lia. }
  assert (Hlook : forall (i : nat) ti,
            (stamp s (e - s) D <$> seqZ 0 pc) !! i = Some ti ->
            ti = stamp s (e - s) D (Z.of_nat i) /\ Z.of_nat i < pc).
  { intros i ti. rewrite list_lookup_fmap.
    destruct (seqZ 0 pc !! i) as [z|] eqn:Hz; [|done].
    apply lookup_seqZ in Hz as [-> Hlt]. simpl. intros [= <-]. done. }
  repeat split.
  - rewrite <- list_fmap_compose. apply list_fmap_ext. intros _ i _. simpl.
    by rewrite Math_round_ratio.
  - intros i j ti tj Hij Hi Hj.
    apply Hlook in Hi as [-> _]. apply Hlook in Hj as [-> _].
    apply stamp_lt; lia.
  - apply Forall_forall. intros t Hin.
    apply list_elem_of_lookup in Hin as [i Hi]. apply Hlook in Hi as [-> Hi].
    pose proof (stamp_bounds s (e - s) D Hd HD HDle (Z.of_nat i)
                  (Hidx (Z.of_nat i) ltac:(lia))). cbv beta. lia.
  - intros _. rewrite seqZ_cons by done. simpl. by rewrite stamp_first by lia.
  - rewrite length_fmap, length_seqZ. intros Hlen.
    rewrite fmap_last, last_lookup, length_seqZ.
    rewrite lookup_seqZ_lt by lia. simpl. f_equal.
    replace (0 + Z.of_nat (pred (Z.to_nat pc))) with D.
    + rewrite stamp_last by lia. lia.
    + unfold D. destruct (Z.eqb_spec (pc - 1) 0); lia.
Qed.

(** C10.  A bound that is 0 is taken for a missing one: with [start = 0] the
    series is the one of the window that starts at [now - 365 days] (as when
    [start] is omitted), with [end = 0] the one of the window that ends at
    [now], also on the path on which [getData] falls back.  The series
    covers that window and not the one asked for.  With [start = 0] it has
    the number of points of the window from [now - 365 days], its first
    point lies at [now - 365 days], no point lies before and, from two
    points on, the last one lies at the end that was given, rounded.  With
    [end = 0] it has the number of points of the window up to [now], no
    point lies after [now] and, from two points on, the last one lies at
    [now].  With both bounds 0 it has 365 points for ['1d'], 8760 for
    ['1h'] and 10 000 for ['1m'] and ['30s']. *)
Theorem generateDataByResolution_zero_bound
    (random : nat -> Q) (now : Z) (resolution : Resolution)
    (start end_ : option Z) (metrics : option (list string))
    (svc : MonitorService) (p : Pending) :
  generateDataByResolution random now resolution (Some 0) end_ metrics
    = generateDataByResolution random now resolution None end_ metrics
  /\ generateDataByResolution random now resolution (Some 0) end_ metrics
    = generateDataByResolution random now resolution (Some (now - 365 * DAY)) end_ metrics
  /\ generateDataByResolution random now resolution start (Some 0) metrics
    = generateDataByResolution random now resolution start None metrics
  /\ generateDataByResolution random now resolution start (Some 0) metrics
    = generateDataByResolution random now resolution start (Some now) metrics
  /\ run (getData_resume random now svc
            {| p_start := 0; p_end := p_end p; p_metrics := p_metrics p;
               p_resolution := p_resolution p; p_cacheKey := p_cacheKey p;
               p_now := p_now p |} Rejected)
    = (svc, run (generateDataByResolution random now (p_resolution p)
                   (Some (now - 365 * DAY)) (Some (p_end p)) (Some (p_metrics p))))
  /\ ("t"%string ∉ default defaultMetricNames metrics ->
      forall p0 : MetricPoint,
        head (points (run (generateDataByResolution random now resolution
                             (Some 0) end_ metrics))) = Some p0 ->
        p0 !! ("t"%string) = Some (inject_Z (now - 365 * DAY)))
  /\ length (points (run (generateDataByResolution random now resolution
                            (Some 0) end_ metrics)))
    = Z.to_nat (Z.min (getPointCount (now - 365 * DAY) (endTimeOf now end_) resolution)
                  10000)
  /\ length (points (run (generateDataByResolution random now resolution
                            start (Some 0) metrics)))
    = Z.to_nat (Z.min (getPointCount (startTimeOf now start) now resolution) 10000)
  /\ Z.of_nat (length (points (run (generateDataByResolution random now resolution
                                      (Some 0) (Some 0) metrics))))
    = match resolution with R1d => 365 | R1h => 8760 | R1m | R30s => 10000 end
  /\ ("t"%string ∉ default defaultMetricNames metrics ->
      (exists ts : list Z,
         timestamps (points (run (generateDataByResolution random now resolution
                                    (Some 0) end_ metrics)))
         = (fun t => Some (inject_Z t)) <$> ts /\
         (ts ≠ [] -> head ts = Some (now - 365 * DAY)) /\
         Forall (fun t => now - 365 * DAY <= t) ts /\
         ((2 <= length ts)%nat ->
          last ts = Some (Math_round (inject_Z (endTimeOf now end_))))) /\
      (exists ts : list Z,
         timestamps (points (run (generateDataByResolution random now resolution
                                    start (Some 0) metrics)))
         = (fun t => Some (inject_Z t)) <$> ts /\
         ((2 <= length ts)%nat -> last ts = Some now) /\
         Forall (fun t => t <= now) ts)).
Proof.
  assert (Hstart : generateDataByResolution random now resolution (Some 0) end_ metrics
    = generateDataByResolution random now resolution (Some (now - 365 * DAY)) end_ metrics).
  { unfold generateDataByResolution. cbv zeta.
    change (365 * 24 * 60 * 60 * 1000) with (365 * DAY).
    by rewrite or_num_zero, or_num_default. }
  assert (Hend : generateDataByResolution random now resolution start (Some 0) metrics
    = generateDataByResolution random now resolution start (Some now) metrics).
  { unfold generateDataByResolution. cbv zeta.
    by rewrite or_num_zero, or_num_default. }
  assert (Hyear : 365 * DAY = YEAR) by reflexivity.
  split; [|split; [exact Hstart|]].
  { unfold generateDataByResolution. cbv zeta. by rewrite or_num_zero. }
  split; [|split; [exact Hend|]].
  { unfold generateDataByResolution. cbv zeta. by rewrite or_num_zero. }
  split.
  { unfold getData_resume, run, mbind, Rand_bind. simpl p_start.
    simpl p_end. simpl p_metrics. simpl p_resolution.
    replace (generateDataByResolution random now (p_resolution p) (Some 0)
               (Some (p_end p)) (Some (p_metrics p)))
      with (generateDataByResolution random now (p_resolution p)
              (Some (now - 365 * DAY)) (Some (p_end p)) (Some (p_metrics p))).
    + by destruct (generateDataByResolution _ _ _ _ _ _ 0%nat).
    + unfold generateDataByResolution. cbv zeta.
      change (365 * 24 * 60 * 60 * 1000) with (365 * DAY).
      by rewrite or_num_zero, or_num_default. }
  split.
  { intros Ht p0 Hp0. unfold run in Hp0.
    apply (generateDataByResolution_first_timestamp _ _ _ _ _ _ _ _ Ht Hp0). }
  split.
  { unfold run. rewrite generateDataByResolution_length. by rewrite or_num_zero. }
  split.
  { unfold run. rewrite generateDataByResolution_length. by rewrite or_num_zero. }
  split.
  { unfold run. rewrite generateDataByResolution_length, !or_num_zero.
    rewrite getPointCount_eq. replace (now - (now - YEAR)) with YEAR by lia.
    by destruct resolution. }
  intros Ht. split.
  - destruct (generateDataByResolution_stamps random now resolution (Some 0) end_
                metrics Ht) as (ts & Heq & _ & Hall & Hhead & Hlast).
    exists ts. split; [exact Heq|]. rewrite Hyear. split; [exact Hhead|]. split.
    + eapply Forall_impl; [exact Hall|]. simpl. unfold startTimeOf. simpl. lia.
    + unfold Math_round. rewrite (Qfloor_comp _ ((2 * endTimeOf now end_ + 1) # 2)).
      * replace (Qfloor ((2 * endTimeOf now end_ + 1) # 2)) with (endTimeOf now end_);
          [exact Hlast|].
        unfold Qfloor. apply Z.div_unique with (r := 1); lia.
      * unfold Qeq, Qplus, inject_Z. cbn -[Z.mul Z.add]. lia.
  - destruct (generateDataByResolution_stamps random now resolution start (Some 0)
                metrics Ht) as (ts & Heq & _ & Hall & _ & Hlast).
    exists ts. split; [exact Heq|]. split; [exact Hlast|].
    eapply Forall_impl; [exact Hall|]. simpl. unfold endTimeOf. simpl. lia.
Qed.

(** ** The cache and the data loader *)

Lemma sort_insert_sorted (x : string) (l : list string) :
  sorted_strings l -> sorted_strings (sort_insert x l).
Proof.
  unfold sorted_strings. induction 1 as [|y l Hl IH Hhd]; simpl.
  - by repeat constructor.
  - destruct (String.leb x y) eqn:Hxy.
    + by repeat constructor.
    + constructor; [done|].
      destruct (String.leb_total x y) as [H|Hyx]; [congruence|].
      destruct Hhd as [|z l Hyz]; simpl; [by constructor|].
      destruct (String.leb x z); by constructor.
Qed.

Lemma Array_sort_sorted (l : list string) : sorted_strings (Array_sort l).
Proof.
  unfold Array_sort. induction l as [|x l IH]; simpl; [constructor|].
  by apply sort_insert_sorted.
Qed.

Lemma Array_sort_of_sorted (l : list string) : sorted_strings l -> Array_sort l = l.
Proof.
  unfold sorted_strings, Array_sort. induction 1 as [|y l Hl IH Hhd]; simpl; [done|].
  rewrite IH.
  destruct Hhd as [|z l Hyz]; simpl; [done|]. by rewrite Hyz.
Qed.

(** Sorting the array a second time changes nothing. *)
Lemma Array_sort_idemp (l : list string) : Array_sort (Array_sort l) = Array_sort l.
Proof. apply Array_sort_of_sorted, Array_sort_sorted. Qed.

Lemma generateCacheKey_sorted start end_ resolution metrics :
  generateCacheKey start end_ resolution (Array_sort metrics)
  = generateCacheKey start end_ resolution metrics.
Proof. unfold generateCacheKey. by rewrite Array_sort_idemp. Qed.

Lemma generateCacheKey_metrics start end_ resolution metrics :
  (generateCacheKey start end_ resolution metrics).2 = Array_sort metrics.
Proof. reflexivity. Qed.

(** [getData] goes to the remote fetch exactly when the cache has no valid
    entry under the key. *)
Lemma getData_begin_unfold svc now start end_ metrics :
  getData_begin svc now start end_ metrics =
  let resolution := getResolutionForRange start end_ in
  let cacheKey := (generateCacheKey start end_ resolution metrics).1 in
  match cache_valid svc cacheKey now with
  | Some data => CacheHit data
  | None =>
      Awaiting {| p_start := start; p_end := end_; p_metrics := Array_sort metrics;
                  p_resolution := resolution; p_cacheKey := cacheKey; p_now := now |}
  end.
Proof. reflexivity. Qed.

#[local] Opaque generateCacheKey.

Lemma getData_begin_miss svc now start end_ metrics p :
  getData_begin svc now start end_ metrics = Awaiting p ->
  cache_valid svc (generateCacheKey start end_ (getResolutionForRange start end_)
                     metrics).1 now = None /\
  p = {| p_start := start; p_end := end_; p_metrics := Array_sort metrics;
         p_resolution := getResolutionForRange start end_;
         p_cacheKey := (generateCacheKey start end_
                          (getResolutionForRange start end_) metrics).1;
         p_now := now |}.
Proof.
  rewrite getData_begin_unfold. cbv zeta.
  destruct (cache_valid svc _ now); [done|]. by intros [= <-].
Qed.

Lemma getData_begin_hit svc now start end_ metrics data :
  cache_valid svc (generateCacheKey start end_ (getResolutionForRange start end_)
                     metrics).1 now = Some data ->
  getData_begin svc now start end_ metrics = CacheHit data.
Proof. rewrite getData_begin_unfold. cbv zeta. by intros ->. Qed.

(** An entry that has expired stays expired. *)
Lemma cache_valid_None_later svc key now now2 :
  now <= now2 -> cache_valid svc key now = None -> cache_valid svc key now2 = None.
Proof.
  unfold cache_valid. intros Hle.
  destruct (cache svc !! key); [|done].
  destruct (cacheExpiry svc !! key) as [fetchedAt|]; [|done].
  destruct (Z.ltb_spec (now - fetchedAt) CACHE_DURATION); [done|]. intros _.
  destruct (Z.ltb_spec (now2 - fetchedAt) CACHE_DURATION); [lia|done].
Qed.

(** C2.  When [getData] misses the cache and the fetch fails, the call does
    not fail: it returns the series that [generateDataByResolution] makes for
    the resolution, the window and the metric array of the call (the array as
    [generateCacheKey] has sorted it in place), and it leaves both
    dictionaries of the cache as they are.  So the key has no valid entry
    afterwards, and the same request, made later, goes to the remote fetch
    again. *)
Theorem getData_fallback_not_cached
    (random : nat -> Q) (now now' : Z) (svc svc' : MonitorService)
    (start end_ : Z) (metrics : list string) (p : Pending) :
  getData_begin svc now start end_ metrics = Awaiting p ->
  run (getData_resume random now' svc' p Rejected)
    = (svc', run (generateDataByResolution random now'
                    (getResolutionForRange start end_)
                    (Some start) (Some end_) (Some (Array_sort metrics))))
  /\ (forall now2, now <= now2 ->
        cache_valid svc (p_cacheKey p) now2 = None /\
        (exists p2, getData_begin svc now2 start end_ metrics = Awaiting p2
                    /\ p_cacheKey p2 = p_cacheKey p) /\
        (exists p2, getData_begin svc now2 start end_ (Array_sort metrics) = Awaiting p2
                    /\ p_cacheKey p2 = p_cacheKey p)).
Proof.
  intros Hbegin. apply getData_begin_miss in Hbegin as [Hmiss ->]. split.
  - unfold getData_resume, run, mbind, Rand_bind. cbn [p_start p_end p_metrics p_resolution].
    by destruct (generateDataByResolution _ _ _ _ _ _ 0%nat).
  - intros now2 Hle. cbn [p_cacheKey].
    pose proof (cache_valid_None_later _ _ _ _ Hle Hmiss) as Hmiss2.
    split; [done|]. split.
    + rewrite getData_begin_unfold. cbv zeta. rewrite Hmiss2. eauto.
    + rewrite getData_begin_unfold. cbv zeta.
      rewrite generateCacheKey_sorted, Hmiss2. eauto.
Qed.

Lemma getData_fallback_not_cached_witness :
  exists p,
    getData_begin empty_service 1700000000000 1699999000000 1700000000000
      ["gpu_1"; "cpu_1"]%string = Awaiting p /\
    (run (getData_resume (fun _ => 0%Q) 1700000000300 empty_service p Rejected)).1
    = empty_service /\
    cache_valid empty_service (p_cacheKey p) 1700000200000 = None.
Proof.
  eexists. split; [reflexivity|].
  destruct (getData_fallback_not_cached (fun _ => 0%Q) 1700000000000 1700000000300
              empty_service empty_service 1699999000000 1700000000000
              ["gpu_1"; "cpu_1"]%string _ eq_refl) as [Hres Hlater].
  split; [exact (f_equal fst Hres)|].
  destruct (Hlater 1700000200000) as [Hnone _]; [lia | exact Hnone].
Defined.

(** *** Two calls of [getData] *)

Lemma call_fetchLog now start end_ metrics w :
  (length (fetchLog (call now start end_ metrics w).1) <= S (length (fetchLog w)))%nat.
Proof.
  unfold call. destruct (getData_begin _ _ _ _ _); simpl; [lia|].
  rewrite length_app. simpl. lia.
Qed.

Lemma await_fetchMetrics_fulfilled random now' p :
  exists data, run (await_fetchMetrics random now' p) = Fulfilled data.
Proof.
  unfold await_fetchMetrics, run, mbind, Rand_bind.
  destruct (fetchMetrics _ _ _ _ _ _ 0%nat) as [[delay data] k]. simpl. eauto.
Qed.

Lemma cache_valid_fresh svc key data fetchedAt now :
  now - fetchedAt < CACHE_DURATION ->
  cache_valid {| cache := <[key:=data]> (cache svc);
                 cacheExpiry := <[key:=fetchedAt]> (cacheExpiry svc) |} key now
  = Some data.
Proof.
  intros Hlt. unfold cache_valid. simpl. rewrite !lookup_insert_eq.
  by rewrite (proj2 (Z.ltb_lt _ _) Hlt).
Qed.

Lemma call_hit now start end_ metrics w data :
  cache_valid (svc w) (generateCacheKey start end_ (getResolutionForRange start end_)
                         metrics).1 now = Some data ->
  call now start end_ metrics w = (w, Some data).
Proof. intros H. unfold call. by rewrite (getData_begin_hit _ _ _ _ _ _ H). Qed.

Lemma call_miss now start end_ metrics w :
  cache_valid (svc w) (generateCacheKey start end_ (getResolutionForRange start end_)
                         metrics).1 now = None ->
  exists p,
    p_cacheKey p = (generateCacheKey start end_ (getResolutionForRange start end_)
                      metrics).1 /\
    p_now p = now /\
    call now start end_ metrics w
    = ({| svc := svc w; inflight := inflight w ++ [p]; fetchLog := fetchLog w ++ [p] |},
       None).
Proof.
  intros H. unfold call. rewrite getData_begin_unfold. cbv zeta. rewrite H.
  eexists. split; [|split]; [| |reflexivity]; reflexivity.
Qed.

(** When the fetch of the oldest waiting call comes back, its data is cached
    under the key of the call, with the time at which the call was made. *)
Lemma settle_fetched_first random now' p rest s log :
  exists data,
    settle_fetched random now' 0 {| svc := s; inflight := p :: rest; fetchLog := log |}
    = ({| svc := {| cache := <[p_cacheKey p := data]> (cache s);
                    cacheExpiry := <[p_cacheKey p := p_now p]> (cacheExpiry s) |};
          inflight := rest; fetchLog := log |},
       Some data).
Proof.
  unfold settle_fetched, settle. cbn [inflight lookup list_lookup svc fetchLog].
  destruct (await_fetchMetrics_fulfilled random now' p) as [data ->].
  exists data. reflexivity.
Qed.

(** C3 (the claim as stated fails).  A second call made 50 ms after the
    first, while the fetch of the first has not come back, finds the cache
    empty and calls [fetchMetrics] a second time. *)
Lemma overlapping_calls_fetch_twice :
  ~ (forall (s : MonitorService) (t1 t2 start end_ : Z) (metrics : list string)
       (between : option ((nat -> Q) * Z)),
       0 <= t2 - t1 < CACHE_DURATION ->
       (length (fetchLog (two_calls s t1 t2 start end_ metrics between)) <= 1)%nat).
Proof.
  intros H.
  specialize (H empty_service 1700000000000 1700000000050 1699999000000
                1700000000000 ["cpu_1"]%string None).
  assert (Hlt : 0 <= 1700000000050 - 1700000000000 < CACHE_DURATION)
    by (unfold CACHE_DURATION; lia).
  specialize (H Hlt). vm_compute in H. lia.
Qed.

(** C3 (amended).  For every window and metric list: when [getData] is
    called, its fetch (if it makes one) comes back, and [getData] is called
    again with the same arguments less than 5 minutes after the first call,
    [fetchMetrics] is called at most once in the two calls. *)
Theorem sequential_calls_fetch_once
    (s : MonitorService) (t1 t2 start end_ : Z) (metrics : list string)
    (random : nat -> Q) (t' : Z) :
  t2 - t1 < CACHE_DURATION ->
  (length (fetchLog (two_calls s t1 t2 start end_ metrics (Some (random, t')))) <= 1)%nat.
Proof.
  intros Hlt. unfold two_calls. cbv zeta.
  set (key := (generateCacheKey start end_ (getResolutionForRange start end_) metrics).1).
  destruct (cache_valid (svc (new_world s)) key t1) as [data|] eqn:Hvalid.
  - (* the first call is served by the cache: nothing waits *)
    rewrite (call_hit _ _ _ _ _ _ Hvalid). cbn [fst].
    unfold settle_fetched. cbn [inflight new_world lookup list_lookup].
    etrans; [apply call_fetchLog|]. simpl. lia.
  - (* the first call fetches, and the data is cached with the time [t1] *)
    destruct (call_miss _ _ _ _ _ Hvalid) as (p & Hkey & Hnow & ->).
    cbn [fst new_world svc inflight fetchLog app].
    destruct (settle_fetched_first random t' p [] s [p]) as [data ->].
    cbn [fst]. rewrite (call_hit _ _ _ _ _ data); [simpl; lia|].
    cbn [svc]. rewrite generateCacheKey_sorted, Hkey, Hnow.
    by apply cache_valid_fresh.
Qed.

Lemma sequential_calls_fetch_once_witness :
  1700000200000 - 1700000000000 < CACHE_DURATION /\
  (length (fetchLog (two_calls empty_service 1700000000000%Z 1700000200000%Z
                       1699999000000%Z 1700000000000%Z ["gpu_1"; "cpu_1"]%string
                       (Some (fun _ => 0%Q, 1700000000250%Z)))) <= 1)%nat.
Proof.
  assert (Hlt : 1700000200000 - 1700000000000 < CACHE_DURATION)
    by (unfold CACHE_DURATION; lia).
  split; [exact Hlt|].
  exact (sequential_calls_fetch_once empty_service 1700000000000 1700000200000
           1699999000000 1700000000000 ["gpu_1"; "cpu_1"]%string
           (fun _ => 0%Q) 1700000000250 Hlt).
Defined.

(** *** Clearing the cache *)

(** With bounds that are not 0, [clearCache] removes the entry of the key and
    nothing else. *)
Lemma clearCache_frame svc start end_ resolution metrics key :
  start ≠ 0 -> end_ ≠ 0 ->
  key ≠ (generateCacheKey start end_ resolution metrics).1 ->
  cache (clearCache svc (Some start) (Some end_) (Some resolution) (Some metrics)) !! key
    = cache svc !! key /\
  cacheExpiry (clearCache svc (Some start) (Some end_) (Some resolution) (Some metrics)) !! key
    = cacheExpiry svc !! key.
Proof.
  intros Hs He Hkey. unfold clearCache.
  rewrite (proj2 (Z.eqb_neq start 0) Hs), (proj2 (Z.eqb_neq end_ 0) He). simpl.
  by rewrite !lookup_delete_ne.
Qed.

(** With a window that starts at the timestamp 0 the cache is emptied. *)
Lemma clearCache_zero_start svc end_ resolution metrics :
  clearCache svc (Some 0) (Some end_) (Some resolution) (Some metrics) = empty_service.
Proof. reflexivity. Qed.

(** C7 (the code fails the claim).  [clearCache(0, 1000, '30s', ['cpu_1'])] is
    given its four arguments, with [start < end]; the entry of the other
    window [5000 .. 9000], whose key is another one, is in the cache before
    the call and is gone after it. *)
Theorem clearCache_epoch_start_clears_all :
  (generateCacheKey 5000 9000 R30s ["cpu_1"]%string).1
    ≠ (generateCacheKey 0 1000 R30s ["cpu_1"]%string).1 /\
  cache two_entries !! (generateCacheKey 5000 9000 R30s ["cpu_1"]%string).1
    = Some some_series /\
  cache (clearCache two_entries (Some 0) (Some 1000) (Some R30s)
           (Some ["cpu_1"]%string))
    !! (generateCacheKey 5000 9000 R30s ["cpu_1"]%string).1 = None.
Proof.
  split; [|split].
  - vm_compute. discriminate.
  - vm_compute. reflexivity.
  - rewrite clearCache_zero_start. apply lookup_empty.
Qed.

(** ** The debounce *)

Lemma new_chart_armed : armed new_chart.
Proof. exact I. Qed.

Lemma callback_timers window c :
  timers (callback window c) = timers c /\
  debounceTimerRef (callback window c) = debounceTimerRef c /\
  nextTimerId (callback window c) = nextTimerId c.
Proof. unfold callback. by destruct (_ && _). Qed.

(** A timer that is not due stays, and no callback runs. *)
Lemma fireDue_not_due now c tm :
  timers c = [tm] -> now < timer_due tm -> fireDue now c = c.
Proof.
  intros Htm Hdue. unfold fireDue. rewrite Htm.
  rewrite !filter_cons, !filter_nil.
  destruct (decide (timer_due tm <= now)) as [?|_]; [lia|].
  destruct (decide (¬ timer_due tm <= now)) as [_|?]; [|lia].
  simpl. destruct c; simpl in *. by subst.
Qed.

(** A timer that is due runs its callback and is gone. *)
Lemma fireDue_due now c tm :
  timers c = [tm] -> timer_due tm <= now ->
  fireDue now c =
  callback (timer_window tm)
    {| debounceTimerRef := debounceTimerRef c; timers := [];
       nextTimerId := nextTimerId c; getDataCalls := getDataCalls c |}.
Proof.
  intros Htm Hdue. unfold fireDue. rewrite Htm.
  rewrite !filter_cons, !filter_nil.
  destruct (decide (timer_due tm <= now)) as [_|?]; [|lia].
  destruct (decide (¬ timer_due tm <= now)) as [?|_]; [lia|].
  reflexivity.
Qed.

Lemma fireDue_idle now c : timers c = [] -> fireDue now c = c.
Proof.
  intros Htm. unfold fireDue. rewrite Htm. simpl.
  destruct c; simpl in *. by subst.
Qed.

Lemma fireDue_armed now c :
  armed c -> armed (fireDue now c) /\
  (timers (fireDue now c) = timers c \/ timers (fireDue now c) = []).
Proof.
  unfold armed. intros Harm.
  destruct (timers c) as [|tm [|tm' l]] eqn:Htm; [| |done].
  - rewrite (fireDue_idle _ _ Htm), Htm. auto.
  - destruct (decide (timer_due tm <= now)) as [Hdue|Hdue].
    + rewrite (fireDue_due _ _ _ Htm Hdue).
      destruct (callback_timers (timer_window tm)
                  {| debounceTimerRef := debounceTimerRef c; timers := [];
                     nextTimerId := nextTimerId c; getDataCalls := getDataCalls c |})
        as (-> & _ & _).
      simpl. auto.
    + rewrite (fireDue_not_due _ _ _ Htm) by lia. rewrite Htm. auto.
Qed.

(** Every zoom event cancels the pending timer and arms a timer of 200 ms for
    its own window: after the event this timer is the only one. *)
Lemma dataZoom_rearms now window c :
  armed c ->
  armed (dataZoom now window c) /\
  getDataCalls (dataZoom now window c) = getDataCalls (fireDue now c) /\
  exists id,
    timers (dataZoom now window c)
    = [{| timer_id := id; timer_due := now + 200; timer_window := window |}].
Proof.
  intros Harm. destruct (fireDue_armed now c Harm) as [Harm' _].
  unfold dataZoom. set (c' := fireDue now c) in *. clearbody c'.
  unfold debounce, armed in *.
  destruct (timers c') as [|tm [|tm' l]] eqn:Htm; [| |done].
  - destruct (debounceTimerRef c') as [id|];
      unfold setTimeout, clearTimeout; simpl; rewrite ?Htm; simpl; eauto.
  - rewrite Harm'. unfold setTimeout, clearTimeout. simpl. rewrite Htm.
    rewrite filter_cons, filter_nil.
    destruct (decide (timer_id tm ≠ timer_id tm)) as [?|_]; [done|].
    simpl. eauto.
Qed.

Lemma last_cons_default {A} (l : list A) (a d : A) :
  List.last (a :: l) d = List.last l a.
Proof.
  revert a d. induction l as [|b l IH]; intros a d; [done|].
  change (List.last (a :: b :: l) d) with (List.last (b :: l) d).
  by rewrite !IH.
Qed.

(** During a burst no callback runs: after its last event the one pending
    timer is the timer of that event. *)
Lemma zooms_burst (events : list (Z * (Z * Z))) : forall (t : Z) (window : Z * Z) (c : Chart),
  armed c -> burst 200 t events ->
  let c' := zooms events (dataZoom t window c) in
  let last_event := List.last events (t, window) in
  armed c' /\
  getDataCalls c' = getDataCalls (fireDue t c) /\
  exists id,
    timers c' = [{| timer_id := id; timer_due := last_event.1 + 200;
                    timer_window := last_event.2 |}].
Proof.
  induction events as [|[t' window'] events IH]; intros t window c Harm Hburst.
  - simpl. by apply dataZoom_rearms.
  - destruct Hburst as [Ht' Hburst]. simpl in Ht', Hburst.
    destruct (dataZoom_rearms t window c Harm) as (Harm1 & Hcalls1 & id1 & Htm1).
    specialize (IH t' window' (dataZoom t window c) Harm1 Hburst).
    cbv zeta in IH. destruct IH as (Harm2 & Hcalls2 & id2 & Htm2).
    assert (Hquiet : fireDue t' (dataZoom t window c) = dataZoom t window c).
    { apply (fireDue_not_due _ _ _ Htm1). simpl. lia. }
    rewrite Hquiet in Hcalls2.
    cbv zeta. change (zooms ((t', window') :: events) (dataZoom t window c))
      with (zooms events (dataZoom t' window' (dataZoom t window c))).
    split; [done|]. split; [congruence|].
    exists id2. by rewrite Htm2, last_cons_default.
Qed.

(** After a burst, once 200 ms have passed without an event, the one timer
    runs: [getData] is called once, for the window of the last event, when
    the bounds of this window are not 0; before that nothing is loaded. *)
Lemma burst_fires_once (events : list (Z * (Z * Z))) (t : Z) (window : Z * Z) (T : Z) :
  burst 200 t events ->
  let last_event := List.last events (t, window) in
  getDataCalls (fireDue T (zooms ((t, window) :: events) new_chart))
  = if decide (T < last_event.1 + 200) then []
    else if negb (last_event.2.1 =? 0) && negb (last_event.2.2 =? 0)
         then [last_event.2] else [].
Proof.
  intros Hburst. cbv zeta.
  destruct (zooms_burst events t window new_chart new_chart_armed Hburst)
    as (_ & Hcalls & id & Htm).
  rewrite (fireDue_idle t new_chart eq_refl) in Hcalls. simpl in Hcalls.
  change (zooms ((t, window) :: events) new_chart)
    with (zooms events (dataZoom t window new_chart)).
  set (c' := zooms events (dataZoom t window new_chart)) in *.
  destruct (decide (T < (List.last events (t, window)).1 + 200)) as [Hlt|Hge].
  - rewrite (fireDue_not_due _ _ _ Htm) by (simpl; lia). done.
  - rewrite (fireDue_due _ _ _ Htm) by (simpl; lia). simpl.
    unfold callback. simpl. destruct (_ && _); simpl; by rewrite Hcalls.
Qed.

Lemma zooms_armed (events : list (Z * (Z * Z))) (c : Chart) :
  armed c -> armed (zooms events c).
Proof.
  revert c. induction events as [|[t window] events IH]; intros c Harm; [done|].
  apply IH. by apply dataZoom_rearms.
Qed.

(** C9.  After any zoom events, a zoom event leaves one pending timer, due
    200 ms later, for its own window (the timer that was pending is
    cancelled).  After a burst of events, each less than 200 ms after the one
    before, whose last window has the bounds that the chart gives, two
    numbers other than 0: nothing is loaded before 200 ms have passed since
    the last event, and once they have passed [getData] has been called
    exactly once, for the window of the last event. *)
Theorem debounce_burst_loads_last_window
    (events : list (Z * (Z * Z))) (t : Z) (window : Z * Z) (T : Z) :
  burst 200 t events ->
  (List.last events (t, window)).2.1 ≠ 0 ->
  (List.last events (t, window)).2.2 ≠ 0 ->
  (forall (history : list (Z * (Z * Z))) (now : Z) (w : Z * Z),
     exists id, timers (dataZoom now w (zooms history new_chart))
                = [{| timer_id := id; timer_due := now + 200; timer_window := w |}]) /\
  (T < (List.last events (t, window)).1 + 200 ->
   getDataCalls (fireDue T (zooms ((t, window) :: events) new_chart)) = []) /\
  ((List.last events (t, window)).1 + 200 <= T ->
   getDataCalls (fireDue T (zooms ((t, window) :: events) new_chart))
   = [(List.last events (t, window)).2]).
Proof.
  intros Hburst H1 H2.
  pose proof (burst_fires_once events t window T Hburst) as Hcalls.
  cbv zeta in Hcalls. rewrite Hcalls. repeat split.
  - intros history now w.
    by apply dataZoom_rearms, zooms_armed, new_chart_armed.
  - intros Hlt. by destruct (decide _); [|lia].
  - intros Hge. destruct (decide _); [lia|].
    by rewrite (proj2 (Z.eqb_neq _ _) H1), (proj2 (Z.eqb_neq _ _) H2).
Qed.

Lemma debounce_burst_loads_last_window_witness :
  getDataCalls
    (fireDue 300 (zooms [(0, (1000, 2000)); (50, (500, 2000)); (100, (700, 2000))]
                    new_chart)) = [(700, 2000)].
Proof.
  apply (debounce_burst_loads_last_window
           [(50, (500, 2000)); (100, (700, 2000))] 0 (1000, 2000) 300).
  - simpl. lia.
  - simpl. lia.
  - simpl. lia.
  - simpl. lia.
Defined.

(** * Further properties *)

(** ** The number of points and the cap *)

(** X1.  Whatever the window, the resolution and the metrics, the series of
    [generateDataByResolution] has at most 10 000 points, and it has no point
    at all exactly when the window it uses does not end after it starts (an
    empty or inverted window gives an empty series, not an error). *)
Theorem generateDataByResolution_point_count_bounds
    (random : nat -> Q) (now : Z) (resolution : Resolution)
    (start end_ : option Z) (metrics : option (list string)) :
  Z.of_nat (length (points (run (generateDataByResolution random now resolution
                                   start end_ metrics)))) <= 10000 /\
  (points (run (generateDataByResolution random now resolution start end_ metrics)) = []
   <-> endTimeOf now end_ <= startTimeOf now start).
Proof.
  unfold run, startTimeOf, endTimeOf.
  pose proof (generateDataByResolution_length random now resolution start end_
                metrics 0%nat) as Hlen.
  pose proof (getPointCount_pos_iff (or_num start (now - YEAR)) (or_num end_ now)
                resolution) as Hpos.
  set (pts := points _) in *. set (pc := getPointCount _ _ _) in *. split.
  - rewrite Hlen. lia.
  - rewrite <- length_zero_iff_nil, Hlen. lia.
Qed.

(** X2.  With the resolution that [getResolutionForRange] chooses, the count
    of points that [getPointCount] asks for exceeds the cap of 10 000 exactly
    for the windows longer than 10 000 minutes and shorter than 30 days (one
    point per minute) and for the windows longer than 10 000 days (one point
    per day). *)
Theorem policy_point_count_exceeds_cap (start end_ : Z) :
  10000 < getPointCount start end_ (getResolutionForRange start end_) <->
  10000 * MINUTE < end_ - start < 30 * DAY \/ 10000 * DAY < end_ - start.
Proof.
  rewrite getResolutionForRange_cases, getPointCount_eq.
  destruct (Z.leb_spec YEAR (end_ - start));
    [|destruct (Z.leb_spec MONTH (end_ - start));
      [|destruct (Z.leb_spec HOUR (end_ - start))]];
    rewrite ceil_ratio_gt_iff by apply RESOLUTION_INTERVALS_pos;
    unfold RESOLUTION_INTERVALS, YEAR, MONTH, HOUR, DAY, MINUTE in *; lia.
Qed.

(** ** The timestamps of a series *)





Section RoundedStamps.

Variables s e : Q.
Variable I : Z.
Hypothesis I_pos : 0 < I.

(** A window from [s] to [e] and a resolution of step [I]: the count of
    points before the cap and after it, the divisor of the interval and the
    interval. *)
Local Abbreviation pc0 := (Math_ceil ((e - s) / inject_Z I)).
Local Abbreviation n := (Z.min pc0 10000).
Local Abbreviation D := (if n - 1 =? 0 then 1 else n - 1).
Local Abbreviation delta := ((e - s) / inject_Z D)%Q.












End RoundedStamps.






(** ** The series of the first paint *)

Lemma generateDataByResolution_step random now resolution start end_ metrics k :
  step (generateDataByResolution random now resolution start end_ metrics k).1
  = resolution.
Proof.
  unfold generateDataByResolution. cbv zeta. unfold mbind, Rand_bind.
  destruct (forEach _ (baseValue random) ∅ k) as [baseValues k1].
  by destruct (forEach _ _ [] k1).
Qed.

(** X4.  The series of the first paint, [getInitialData], has the step ['1d']
    and exactly 365 points, each with the six default metrics in [0, 100],
    when the clock does not move between the two readings or reads neither 0
    nor 365 days. *)
Theorem getInitialData_year_of_days (random : nat -> Q) (now now' : Z) :
  now' = now \/ (now ≠ 0 /\ now ≠ YEAR) ->
  step (run (getInitialData random now now')) = R1d /\
  length (points (run (getInitialData random now now'))) = 365%nat /\
  Forall (point_ok defaultMetricNames) (points (run (getInitialData random now now'))).
Proof.
  intros Hnow. unfold getInitialData, generateInitialData, run. cbv zeta.
  split; [apply generateDataByResolution_step|]. split.
  - rewrite generateDataByResolution_length.
    change (365 * 24 * 60 * 60 * 1000) with YEAR.
    assert (Hs : or_num (Some (now - YEAR)) (now' - YEAR) = now - YEAR).
    { destruct Hnow as [->|[_ Hy]]; [apply or_num_default|].
      apply or_num_nonzero. lia. }
    assert (He : or_num (Some now) now' = now).
    { destruct Hnow as [->|[H0 _]]; [apply or_num_default|]. by apply or_num_nonzero. }
    rewrite Hs, He, getPointCount_eq.
    replace (now - (now - YEAR)) with YEAR by lia. reflexivity.
  - apply (generateDataByResolution_points_ok random now' R1d _ _ None).
Qed.

Lemma getInitialData_year_of_days_witness :
  length (points (run (getInitialData (fun _ => 0%Q) 1700000000000 1700000000001)))
  = 365%nat.
Proof.
  apply (getInitialData_year_of_days (fun _ => 0%Q) 1700000000000 1700000000001).
  right. split; [discriminate|]. unfold YEAR. lia.
Defined.

(** ** The cache key *)

#[local] Transparent generateCacheKey.

Lemma ascii_compare_refl (a : Ascii.ascii) : Ascii.compare a a = Eq.
Proof. unfold Ascii.compare. apply N.compare_refl. Qed.

Lemma ascii_compare_lt_trans (a b c : Ascii.ascii) :
  Ascii.compare a b = Lt -> Ascii.compare b c = Lt -> Ascii.compare a c = Lt.
Proof.
  unfold Ascii.compare. rewrite !N.compare_lt_iff. apply N.lt_trans.
Qed.

Lemma string_le_trans (a b c : string) :
  string_le a b -> string_le b c -> string_le a c.
Proof.
  unfold string_le, String.leb. revert b c.
  induction a as [|x a IH]; intros b c Hab Hbc.
  - by destruct c.
  - destruct b as [|y b]; [done|]. destruct c as [|z c]; [done|].
    simpl in *.
    destruct (Ascii.compare x y) eqn:Hxy; [| |done].
    + apply Ascii.compare_eq_iff in Hxy as ->.
      destruct (Ascii.compare y z) eqn:Hyz; [|done|done].
      by apply IH with b.
    + destruct (Ascii.compare y z) eqn:Hyz; [| |done].
      * apply Ascii.compare_eq_iff in Hyz as <-. by rewrite Hxy.
      * by rewrite (ascii_compare_lt_trans _ _ _ Hxy Hyz).
Qed.

#[local] Instance string_le_transitive : Transitive string_le.
Proof. intros a b c. apply string_le_trans. Qed.

#[local] Instance string_le_antisymm : AntiSymm eq string_le.
Proof. intros a b. apply String.leb_antisym. Qed.

Lemma sort_insert_perm (x : string) (l : list string) : sort_insert x l ≡ₚ x :: l.
Proof.
  induction l as [|y l IH]; simpl; [done|].
  destruct (String.leb x y); [done|]. rewrite IH. apply Permutation_swap.
Qed.

Lemma Array_sort_perm (l : list string) : Array_sort l ≡ₚ l.
Proof.
  unfold Array_sort. induction l as [|x l IH]; simpl; [done|].
  by rewrite sort_insert_perm, IH.
Qed.

(** X5.  [generateCacheKey] (and so [getData] and [clearCache]) sorts the
    metric array of its caller in place: after the call the array holds the
    same names, each as often as before, in ascending order. *)
Theorem generateCacheKey_sorts_in_place
    (start end_ : Z) (resolution : Resolution) (metrics : list string) :
  (generateCacheKey start end_ resolution metrics).2 ≡ₚ metrics /\
  Sorted string_le (generateCacheKey start end_ resolution metrics).2.
Proof.
  rewrite generateCacheKey_metrics. split; [apply Array_sort_perm|].
  apply Array_sort_sorted.
Qed.

(** X6.  Two metric lists that differ only in the order of their names give
    the same cache key (and leave the same sorted array). *)
Theorem generateCacheKey_order_independent
    (start end_ : Z) (resolution : Resolution) (metrics1 metrics2 : list string) :
  metrics1 ≡ₚ metrics2 ->
  generateCacheKey start end_ resolution metrics1
  = generateCacheKey start end_ resolution metrics2.
Proof.
  intros Hperm.
  assert (Hsort : Array_sort metrics1 = Array_sort metrics2).
  { apply (Sorted_unique string_le); [apply Array_sort_sorted..|].
    by rewrite !Array_sort_perm. }
  unfold generateCacheKey. cbv zeta. by rewrite Hsort.
Qed.

Lemma generateCacheKey_order_independent_witness :
  generateCacheKey 1699999000000 1700000000000 R1m ["cpu_1"; "gpu_1"]%string
  = generateCacheKey 1699999000000 1700000000000 R1m ["gpu_1"; "cpu_1"]%string.
Proof.
  apply (generateCacheKey_order_independent 1699999000000 1700000000000 R1m
           ["cpu_1"; "gpu_1"]%string ["gpu_1"; "cpu_1"]%string).
  apply Permutation_swap.
Defined.

(** X7.  The key does not determine the metric list: a list with the one
    name [a,b] (with a comma in it) has the key of the list of the two names
    [a] and [b].  So once the series of the two names is cached, a request
    for the one name within five minutes is served that series. *)
Theorem generateCacheKey_comma_collision
    (start end_ : Z) (a b : string) (svc : MonitorService)
    (data : MetricsResponse) (fetchedAt now : Z) :
  string_le a b ->
  (generateCacheKey start end_ (getResolutionForRange start end_)
     [a +:+ "," +:+ b]).1
  = (generateCacheKey start end_ (getResolutionForRange start end_) [a; b]).1 /\
  (now - fetchedAt < CACHE_DURATION ->
   getData_begin
     {| cache := <[(generateCacheKey start end_ (getResolutionForRange start end_)
                      [a; b]).1 := data]> (cache svc);
        cacheExpiry := <[(generateCacheKey start end_
                            (getResolutionForRange start end_) [a; b]).1 := fetchedAt]>
                         (cacheExpiry svc) |}
     now start end_ [a +:+ "," +:+ b]
   = CacheHit data).
Proof.
  intros Hab.
  assert (Hkey : (generateCacheKey start end_ (getResolutionForRange start end_)
                    [a +:+ "," +:+ b]).1
                 = (generateCacheKey start end_ (getResolutionForRange start end_)
                      [a; b]).1).
  { unfold generateCacheKey, Array_sort. cbv zeta. simpl. unfold string_le in Hab.
    by rewrite Hab. }
  split; [exact Hkey|]. intros Hlt.
  apply getData_begin_hit. rewrite Hkey. by apply cache_valid_fresh.
Qed.

Lemma generateCacheKey_comma_collision_witness :
  (generateCacheKey 1699999000000 1700000000000
     (getResolutionForRange 1699999000000 1700000000000) ["cpu_1,gpu_1"]%string).1
  = (generateCacheKey 1699999000000 1700000000000
       (getResolutionForRange 1699999000000 1700000000000)
       ["cpu_1"; "gpu_1"]%string).1.
Proof.
  exact (proj1 (generateCacheKey_comma_collision 1699999000000 1700000000000
                  "cpu_1" "gpu_1" empty_service some_series 0 0 eq_refl)).
Defined.

#[local] Opaque generateCacheKey.

(** ** The life of a cache entry *)

Lemma cache_valid_stale svc key data fetchedAt now :
  CACHE_DURATION <= now - fetchedAt ->
  cache_valid {| cache := <[key:=data]> (cache svc);
                 cacheExpiry := <[key:=fetchedAt]> (cacheExpiry svc) |} key now
  = None.
Proof.
  intros Hge. unfold cache_valid. simpl. rewrite !lookup_insert_eq.
  by rewrite (proj2 (Z.ltb_ge _ _) Hge).
Qed.

(** X8.  When [getData] has missed the cache and its fetch succeeds, the call
    returns the fetched series and stores it; the same request is then
    answered from the cache, with that series, as long as less than five
    minutes have passed since the first call was made (not since its fetch
    came back); from five minutes on it goes to the fetch again, and the
    stale entry is still in the dictionary (nothing evicts it). *)
Theorem getData_caches_for_five_minutes
    (random : nat -> Q) (now now' now2 : Z) (svc : MonitorService)
    (start end_ : Z) (metrics : list string) (p : Pending) (data : MetricsResponse) :
  getData_begin svc now start end_ metrics = Awaiting p ->
  (run (getData_resume random now' svc p (Fulfilled data))).2 = data /\
  (now2 - now < CACHE_DURATION ->
   getData_begin (run (getData_resume random now' svc p (Fulfilled data))).1
     now2 start end_ (Array_sort metrics) = CacheHit data) /\
  (CACHE_DURATION <= now2 - now ->
   (exists p2,
      getData_begin (run (getData_resume random now' svc p (Fulfilled data))).1
        now2 start end_ (Array_sort metrics) = Awaiting p2) /\
   cache (run (getData_resume random now' svc p (Fulfilled data))).1 !! p_cacheKey p
   = Some data).
Proof.
  intros Hbegin. apply getData_begin_miss in Hbegin as [_ ->].
  unfold getData_resume, run. cbn [mret Rand_ret fst snd p_cacheKey p_now].
  split; [done|]. split.
  - intros Hlt. apply getData_begin_hit. rewrite generateCacheKey_sorted.
    by apply cache_valid_fresh.
  - intros Hge. split.
    + rewrite getData_begin_unfold. cbv zeta. rewrite generateCacheKey_sorted.
      rewrite cache_valid_stale by done. eauto.
    + cbn [cache]. apply lookup_insert_eq.
Qed.

Lemma getData_caches_for_five_minutes_witness :
  exists p,
    getData_begin empty_service 1700000000000 1699999000000 1700000000000
      ["gpu_1"; "cpu_1"]%string = Awaiting p /\
    getData_begin
      (run (getData_resume (fun _ => 0%Q) 1700000000250 empty_service p
              (Fulfilled some_series))).1
      1700000200000 1699999000000 1700000000000 (Array_sort ["gpu_1"; "cpu_1"]%string)
    = CacheHit some_series.
Proof.
  eexists. split; [reflexivity|].
  destruct (getData_caches_for_five_minutes (fun _ => 0%Q) 1700000000000
              1700000000250 1700000200000 empty_service 1699999000000 1700000000000
              ["gpu_1"; "cpu_1"]%string _ some_series eq_refl) as (_ & Hhit & _).
  apply Hhit. unfold CACHE_DURATION. lia.
Defined.

(** X9.  When the fetches of two calls for the same key come back one after
    the other, the cache keeps the series of the fetch that came back last,
    and counts its five minutes from the time at which that call had been
    made, whichever of the two calls was made first. *)
Theorem getData_last_fetch_wins
    (random1 random2 : nat -> Q) (t1 t2 now : Z) (svc : MonitorService)
    (p1 p2 : Pending) (data1 data2 : MetricsResponse) :
  p_cacheKey p1 = p_cacheKey p2 ->
  cache_valid
    (run (getData_resume random2 t2
            (run (getData_resume random1 t1 svc p1 (Fulfilled data1))).1
            p2 (Fulfilled data2))).1
    (p_cacheKey p1) now
  = if now - p_now p2 <? CACHE_DURATION then Some data2 else None.
Proof.
  intros Hkey. unfold getData_resume, run, cache_valid.
  cbn [mret Rand_ret fst snd cache cacheExpiry].
  rewrite Hkey, !lookup_insert_eq. done.
Qed.

Lemma getData_last_fetch_wins_witness :
  cache_valid
    (run (getData_resume (fun _ => 0%Q) 1700000000300
            (run (getData_resume (fun _ => 0%Q) 1700000000200 empty_service
                    {| p_start := 5000; p_end := 9000; p_metrics := [];
                       p_resolution := R30s; p_cacheKey := "5000-9000-30s-";
                       p_now := 1700000000100 |}
                    (Fulfilled some_series))).1
            {| p_start := 5000; p_end := 9000; p_metrics := [];
               p_resolution := R30s; p_cacheKey := "5000-9000-30s-";
               p_now := 1700000000000 |}
            (Fulfilled {| step := R30s; points := [∅] |}))).1
    "5000-9000-30s-" 1700000300050
  = None.
Proof.
  exact (getData_last_fetch_wins (fun _ => 0%Q) (fun _ => 0%Q) 1700000000200
           1700000000300 1700000300050 empty_service
           {| p_start := 5000; p_end := 9000; p_metrics := [];
              p_resolution := R30s; p_cacheKey := "5000-9000-30s-";
              p_now := 1700000000100 |}
           {| p_start := 5000; p_end := 9000; p_metrics := [];
              p_resolution := R30s; p_cacheKey := "5000-9000-30s-";
              p_now := 1700000000000 |}
           some_series {| step := R30s; points := [∅] |} eq_refl).
Defined.

(** X10.  The two dictionaries of the service always hold the same keys: this
    is so in a new service, and [getData] (whether the fetch succeeds or
    fails) and [clearCache] (with any arguments) keep it so.  A lookup
    therefore misses only because the key is absent or its entry is five
    minutes old. *)
Theorem cache_dictionaries_consistent
    (random : nat -> Q) (now' : Z) (svc : MonitorService) (p : Pending) (o : Settled)
    (start end_ : option Z) (resolution : option Resolution)
    (metrics : option (list string)) (key : string) (now : Z) :
  consistent svc ->
  consistent empty_service /\
  consistent (run (getData_resume random now' svc p o)).1 /\
  consistent (clearCache svc start end_ resolution metrics) /\
  (cache_valid svc key now = None <->
   cache svc !! key = None \/
   exists fetchedAt, cacheExpiry svc !! key = Some fetchedAt
                     /\ CACHE_DURATION <= now - fetchedAt).
Proof.
  unfold consistent. intros Hdom. split; [|split; [|split]].
  - simpl. by rewrite !dom_empty_L.
  - destruct o as [data|]; unfold getData_resume, run.
    + cbn [mret Rand_ret fst cache cacheExpiry]. by rewrite !dom_insert_L, Hdom.
    + unfold mbind, Rand_bind.
      by destruct (generateDataByResolution _ _ _ _ _ _ 0%nat).
  - unfold clearCache.
    destruct start as [start|], end_ as [end_|], resolution as [resolution|],
      metrics as [metrics|]; simpl; rewrite ?dom_empty_L; try done.
    destruct (negb (start =? 0) && negb (end_ =? 0)); simpl;
      by rewrite ?dom_delete_L, ?dom_empty_L, ?Hdom.
  - unfold cache_valid.
    destruct (cache svc !! key) as [data|] eqn:Hc; [|by split; auto].
    assert (Hin : key ∈ dom (cacheExpiry svc)).
    { rewrite <- Hdom. apply elem_of_dom. eauto. }
    apply elem_of_dom in Hin as [fetchedAt Hf]. rewrite Hf.
    destruct (Z.ltb_spec (now - fetchedAt) CACHE_DURATION); split; try done.
    + intros [?|(t & Ht & Hge)]; [done|]. assert (t = fetchedAt) by congruence. lia.
    + intros _. right. eauto.
Qed.

Lemma cache_dictionaries_consistent_witness :
  consistent (clearCache two_entries (Some 5000) (Some 9000) (Some R30s)
                (Some ["cpu_1"]%string)).
Proof.
  assert (H : consistent two_entries).
  { unfold consistent, two_entries. cbn [cache cacheExpiry].
    by rewrite !dom_insert_L, !dom_empty_L. }
  exact (proj1 (proj2 (proj2 (cache_dictionaries_consistent (fun _ => 0%Q) 0
                                two_entries
                                {| p_start := 0; p_end := 0; p_metrics := [];
                                   p_resolution := R30s; p_cacheKey := "";
                                   p_now := 0 |} Rejected
                                (Some 5000) (Some 9000) (Some R30s)
                                (Some ["cpu_1"]%string) "" 0 H)))).
Defined.

(** X11.  [clearCache] with its four arguments, neither bound being 0,
    removes the entry of its key from both dictionaries: the key has no valid
    entry afterwards, and the lookup of every other key gives what it gave
    before.  [clearCache()] without arguments leaves no valid entry at all. *)
Theorem clearCache_evicts_one_key
    (svc : MonitorService) (start end_ : Z) (resolution : Resolution)
    (metrics : list string) (key : string) (now : Z) :
  start ≠ 0 -> end_ ≠ 0 ->
  cache_valid (clearCache svc (Some start) (Some end_) (Some resolution) (Some metrics))
    (generateCacheKey start end_ resolution metrics).1 now = None /\
  (key ≠ (generateCacheKey start end_ resolution metrics).1 ->
   cache_valid (clearCache svc (Some start) (Some end_) (Some resolution)
                  (Some metrics)) key now
   = cache_valid svc key now) /\
  cache_valid (clearCache svc None None None None) key now = None.
Proof.
  intros Hs He. unfold clearCache.
  rewrite (proj2 (Z.eqb_neq start 0) Hs), (proj2 (Z.eqb_neq end_ 0) He).
  cbn [negb andb]. unfold cache_valid. cbn [cache cacheExpiry]. split; [|split].
  - by rewrite lookup_delete_eq.
  - intros Hkey. by rewrite !lookup_delete_ne.
  - by rewrite lookup_empty.
Qed.

Lemma clearCache_evicts_one_key_witness :
  cache_valid (clearCache two_entries (Some 5000) (Some 9000) (Some R30s)
                 (Some ["cpu_1"]%string))
    (generateCacheKey 5000 9000 R30s ["cpu_1"]%string).1 1700000000001 = None.
Proof.
  apply (clearCache_evicts_one_key two_entries 5000 9000 R30s ["cpu_1"]%string
           "" 1700000000001); discriminate.
Defined.

(** ** The render sampler in the chart *)

Lemma sampleLoop_lookup (data : list row) (step fuel i k : nat) :
  (1 <= step)%nat -> (length data <= i + fuel)%nat ->
  sampleLoop data step fuel i [] !! k = data !! (i + k * step)%nat.
Proof.
  intros Hstep. revert i k. induction fuel as [|fuel IH]; intros i k Hfuel.
  - simpl. symmetry. apply lookup_ge_None. nia.
  - destruct (data !! i) as [r|] eqn:Hr.
    + rewrite (sampleLoop_S _ _ _ _ r Hr). destruct k as [|k]; simpl.
      * by rewrite Nat.add_0_r.
      * rewrite IH by lia. f_equal. lia.
    + rewrite sampleLoop_None by done. symmetry.
      apply lookup_ge_None. apply lookup_ge_None in Hr. nia.
Qed.

(** Above the budget, with the step written out. *)
Lemma sampleData_strided (data : list row) (maxPoints : nat) :
  (1 <= maxPoints)%nat -> (maxPoints < length data)%nat ->
  let step := Z.to_nat (Math_ceil (ratio (Z.of_nat (length data)) (Z.of_nat maxPoints))) in
  (2 <= step)%nat /\ (length data <= step * maxPoints)%nat /\
  ((step - 1) * maxPoints < length data)%nat /\
  sampleData data maxPoints =
    let sampledData := sampleLoop data step (length data) 0 [] in
    match last sampledData, last data with
    | Some s, Some d => if first_differs s d then sampledData ++ [d] else sampledData
    | _, _ => sampledData
    end.
Proof.
  intros Hm Hn. cbv zeta. unfold sampleData.
  rewrite (proj2 (Nat.leb_gt _ _)) by lia.
  destruct maxPoints as [|m]; [lia|].
  pose proof (ceil_ratio_ge (Z.of_nat (length data)) (Z.of_nat (S m)) ltac:(lia)).
  pose proof (ceil_ratio_lt (Z.of_nat (length data)) (Z.of_nat (S m)) ltac:(lia)).
  set (c := Math_ceil _) in *.
  assert (Hc : 2 <= c) by nia.
  repeat split; try done; nia.
Qed.

(** X12.  Above the budget, [sampleData] takes the points at the indices 0,
    [step], [2 * step], ... of the input, with
    [step = ceil(data.length / maxPoints) >= 2] the least step that covers the
    input in [maxPoints] strides; what it returns besides these points is at
    most the last point of the input, at the end. *)
Theorem sampleData_takes_every_step (data : list row) (maxPoints : nat) :
  (1 <= maxPoints)%nat -> (maxPoints < length data)%nat ->
  exists step : nat,
    (2 <= step)%nat /\ (length data <= step * maxPoints)%nat /\
    ((step - 1) * maxPoints < length data)%nat /\
    (forall k : nat, (k * step < length data)%nat ->
       sampleData data maxPoints !! k = data !! (k * step)%nat) /\
    (forall (k : nat) (r : row), (length data <= k * step)%nat ->
       sampleData data maxPoints !! k = Some r ->
       last data = Some r /\ sampleData data maxPoints !! S k = None).
Proof.
  intros Hm Hn.
  destruct (sampleData_strided data maxPoints Hm Hn)
    as (Hstep & Hcover & Hleast & ->). cbv zeta.
  set (step := Z.to_nat _) in *. exists step.
  split; [done|]. split; [done|]. split; [done|].
  assert (Hlook : forall k, sampleLoop data step (length data) 0 [] !! k
                            = data !! (k * step)%nat).
  { intros k. rewrite sampleLoop_lookup by lia. done. }
  set (sampledData := sampleLoop data step (length data) 0 []) in *.
  assert (Hin : forall k, (k * step < length data)%nat ->
                          (k < length sampledData)%nat).
  { intros k Hk. apply lookup_lt_is_Some. rewrite Hlook.
    by apply lookup_lt_is_Some. }
  assert (Hout : forall k, (length data <= k * step)%nat ->
                           (length sampledData <= k)%nat).
  { intros k Hk. apply lookup_ge_None. rewrite Hlook. by apply lookup_ge_None. }
  split.
  - intros k Hk. rewrite <- Hlook.
    destruct (last sampledData) as [s|]; [|done].
    destruct (last data) as [d|]; [|done].
    destruct (first_differs s d); [|done].
    apply lookup_app_l. by apply Hin.
  - intros k r Hk Hr. specialize (Hout k Hk).
    destruct (last sampledData) as [s|];
      [|by apply lookup_ge_None_2 with (i := k) in Hout; congruence].
    destruct (last data) as [d|];
      [|by apply lookup_ge_None_2 with (i := k) in Hout; congruence].
    destruct (first_differs s d);
      [|by apply lookup_ge_None_2 with (i := k) in Hout; congruence].
    rewrite lookup_app_r in Hr by done.
    destruct (k - length sampledData)%nat as [|n] eqn:Hkn; [|by destruct n].
    simpl in Hr. inversion Hr; subst r. split; [done|].
    apply lookup_ge_None. rewrite length_app. simpl. lia.
Qed.

Lemma sampleData_takes_every_step_witness :
  exists step : nat,
    (2 <= step)%nat /\
    (forall k : nat, (k * step < length ten_points)%nat ->
       sampleData ten_points 5 !! k = ten_points !! (k * step)%nat).
Proof.
  assert (Hm : (1 <= 5)%nat) by lia.
  assert (Hn : (5 < length ten_points)%nat) by (vm_compute; lia).
  destruct (sampleData_takes_every_step ten_points 5 Hm Hn)
    as (step & Hstep & _ & _ & Hlook & _).
  exists step. split; [exact Hstep | exact Hlook].
Defined.

(** The sampled list is never longer than the budget plus one. *)
Lemma sampleData_length_le (data : list row) (maxPoints : nat) :
  (1 <= maxPoints)%nat -> (length (sampleData data maxPoints) <= maxPoints + 1)%nat.
Proof.
  intros Hm. destruct (le_lt_dec (length data) maxPoints) as [Hle|Hgt].
  { rewrite sampleData_small by done. lia. }
  destruct (sampleData_large data maxPoints Hm Hgt) as (step & Hstep & Hcover & ->).
  cbv zeta.
  pose proof (sampleLoop_length data step Hstep (length data) 0) as Hlen.
  set (sampledData := sampleLoop data step (length data) 0 []) in *.
  assert (Hs : (length sampledData <= maxPoints)%nat) by nia.
  destruct (last sampledData) as [s|]; [|lia].
  destruct (last data) as [d|]; [|lia].
  destruct (first_differs s d); [|lia].
  rewrite length_app. simpl. lia.
Qed.

Lemma maxPointsFor_bounds (offsetWidth : option Z) :
  200 <= maxPointsFor offsetWidth <= 1000.
Proof. unfold maxPointsFor. cbv zeta. lia. Qed.

(** X13.  Whatever the width of the chart element (missing and 0 count as
    800), the point budget lies between 200 and 1000; a series of at most 200
    points is drawn whole, and no series is drawn with more than 1001
    points. *)
Theorem chart_point_budget
    (offsetWidth : option Z) (points : list MetricPoint) (metric : string) :
  200 <= maxPointsFor offsetWidth <= 1000 /\
  maxPointsFor None = 800 /\ maxPointsFor (Some 0) = 800 /\
  ((length points <= 200)%nat ->
   sampleData (rawData points metric) (Z.to_nat (maxPointsFor offsetWidth))
   = rawData points metric) /\
  (length (sampleData (rawData points metric) (Z.to_nat (maxPointsFor offsetWidth)))
   <= 1001)%nat.
Proof.
  pose proof (maxPointsFor_bounds offsetWidth) as Hb.
  split; [done|]. split; [done|]. split; [done|]. split.
  - intros Hlen. apply sampleData_small. unfold rawData. rewrite length_fmap. lia.
  - etrans; [apply sampleData_length_le; lia|]. lia.
Qed.

(** When no earlier row has the timestamp of the last row, both ends of the
    list are kept. *)
Lemma sampleData_keeps_endpoints (data : list row) (maxPoints : nat) :
  (1 <= maxPoints)%nat ->
  (forall (j : nat) r d, (j < length data - 1)%nat -> data !! j = Some r ->
     last data = Some d -> first_differs r d = true) ->
  head (sampleData data maxPoints) = head data /\
  last (sampleData data maxPoints) = last data.
Proof.
  intros Hm Hdistinct.
  destruct (le_lt_dec (length data) maxPoints) as [Hle|Hgt].
  { by rewrite sampleData_small. }
  destruct (sampleData_large data maxPoints Hm Hgt) as (step & Hstep & _ & ->).
  cbv zeta.
  assert (Hlook : forall k, sampleLoop data step (length data) 0 [] !! k
                            = data !! (k * step)%nat).
  { intros k. rewrite sampleLoop_lookup by lia. done. }
  set (sampledData := sampleLoop data step (length data) 0 []) in *.
  assert (Hhead : head sampledData = head data).
  { by rewrite !head_lookup, Hlook. }
  destruct (last data) as [d|] eqn:Hd.
  2:{ apply last_None in Hd. subst data. simpl in Hgt. lia. }
  destruct (last sampledData) as [s|] eqn:Hs.
  2:{ apply last_None in Hs. rewrite Hs in Hhead.
      destruct data; [simpl in Hgt; lia | done]. }
  assert (Hpos : (0 < length sampledData)%nat).
  { destruct (length sampledData) eqn:Hlen; [|lia].
    apply nil_length_inv in Hlen. by rewrite Hlen in Hs. }
  rewrite last_lookup, Hlook in Hs.
  set (j := (pred (length sampledData) * step)%nat) in *.
  pose proof (lookup_lt_Some _ _ _ Hs) as Hj.
  destruct (decide (j < length data - 1)%nat) as [Hlt|Hge].
  - rewrite (Hdistinct j s d Hlt Hs eq_refl). split.
    + rewrite <- Hhead, !head_lookup. by apply lookup_app_l.
    + by rewrite last_snoc.
  - assert (s = d) as ->.
    { rewrite last_lookup in Hd. replace (pred (length data)) with j in Hd by lia.
      congruence. }
    rewrite first_differs_refl. split; [done|].
    rewrite last_lookup, Hlook. done.
Qed.

(** The points of a generated series have strictly increasing timestamps. *)
Lemma generated_timestamps_increasing
    random now resolution start end_ metrics k (i j : nat) (pi pj : MetricPoint) :
  "t"%string ∉ default defaultMetricNames metrics ->
  (i < j)%nat ->
  points (generateDataByResolution random now resolution start end_ metrics k).1 !! i
    = Some pi ->
  points (generateDataByResolution random now resolution start end_ metrics k).1 !! j
    = Some pj ->
  exists ti tj : Z,
    pi !! ("t"%string) = Some (inject_Z ti) /\
    pj !! ("t"%string) = Some (inject_Z tj) /\ ti < tj.
Proof.
  intros Ht Hij Hi Hj.
  pose proof (generateDataByResolution_timestamps_eq random now resolution start
                end_ metrics k Ht) as Heq. cbv zeta in Heq.
  set (s := startTimeOf now start) in *. set (e := endTimeOf now end_) in *.
  set (pc := Z.min (getPointCount s e resolution) 10000) in *.
  set (D := if pc - 1 =? 0 then 1 else pc - 1) in *.
  assert (Hts : forall (n : nat) (p : MetricPoint),
            points (generateDataByResolution random now resolution start end_
                      metrics k).1 !! n = Some p ->
            p !! ("t"%string) = Some (inject_Z (stamp s (e - s) D (Z.of_nat n)))
            /\ Z.of_nat n < pc).
  { intros n p Hp.
    assert (Hn : timestamps (points (generateDataByResolution random now resolution
                                       start end_ metrics k).1) !! n
                 = Some (p !! ("t"%string))).
    { unfold timestamps. by rewrite list_lookup_fmap, Hp. }
    rewrite Heq, list_lookup_fmap in Hn.
    destruct (seqZ 0 pc !! n) as [z|] eqn:Hz; [|done].
    apply lookup_seqZ in Hz as [-> Hlt]. simpl in Hn.
    assert (HD : 0 < D) by (unfold D; destruct (Z.eqb_spec (pc - 1) 0); lia).
    rewrite Math_round_ratio in Hn by done. rewrite Z.add_0_l in Hn.
    split; [|done]. unfold stamp. by inversion Hn. }
  destruct (Hts i pi Hi) as [Hpi Hipc]. destruct (Hts j pj Hj) as [Hpj Hjpc].
  exists (stamp s (e - s) D (Z.of_nat i)), (stamp s (e - s) D (Z.of_nat j)).
  split; [done|]. split; [done|].
  assert (Hd : 0 < e - s).
  { pose proof (getPointCount_pos_iff s e resolution). lia. }
  assert (HD : 0 < D) by (unfold D; destruct (Z.eqb_spec (pc - 1) 0); lia).
  assert (HDle : D <= e - s).
  { unfold D. destruct (Z.eqb_spec (pc - 1) 0); [lia|].
    pose proof (ceil_ratio_lt (e - s) (RESOLUTION_INTERVALS resolution)
                  (RESOLUTION_INTERVALS_pos _)) as Hc.
    rewrite <- getPointCount_eq in Hc.
    pose proof (RESOLUTION_INTERVALS_pos resolution). nia. }
  apply stamp_lt; lia.
Qed.

(** The rows that the chart hands to [sampleData] for a generated series
    have strictly increasing timestamps. *)
Lemma rawData_increasing_timestamps
    random now resolution start end_ metrics k (metric : string) :
  "t"%string ∉ default defaultMetricNames metrics ->
  increasing_timestamps
    (rawData (points (generateDataByResolution random now resolution start end_
                        metrics k).1) metric).
Proof.
  intros Ht i j ri rj Hij Hi Hj. unfold rawData in Hi, Hj.
  rewrite list_lookup_fmap in Hi, Hj.
  destruct (points _ !! i) as [pi|] eqn:Hpi; [|done].
  destruct (points _ !! j) as [pj|] eqn:Hpj; [|done].
  simpl in Hi, Hj. inversion Hi; subst ri. inversion Hj; subst rj.
  destruct (generated_timestamps_increasing random now resolution start end_
              metrics k i j pi pj Ht Hij Hpi Hpj) as (ti & tj & -> & -> & Hlt).
  exists (inject_Z ti), (inject_Z tj). split; [done|]. split; [done|].
  by rewrite <- Zlt_Qlt.
Qed.

(** X14.  For a series that [generateDataByResolution] has made (no metric
    being named ["t"]), the rows that the chart draws for a metric, once
    sampled with any budget of at least one point, begin with the first row
    and end with the last row of the series: both ends of the window are
    drawn. *)
Theorem generated_series_keeps_endpoints
    (random : nat -> Q) (now : Z) (resolution : Resolution)
    (start end_ : option Z) (metrics : option (list string))
    (metric : string) (maxPoints : nat) :
  "t"%string ∉ default defaultMetricNames metrics ->
  (1 <= maxPoints)%nat ->
  head (sampleData
          (rawData (points (run (generateDataByResolution random now resolution
                                   start end_ metrics))) metric) maxPoints)
  = head (rawData (points (run (generateDataByResolution random now resolution
                                  start end_ metrics))) metric) /\
  last (sampleData
          (rawData (points (run (generateDataByResolution random now resolution
                                   start end_ metrics))) metric) maxPoints)
  = last (rawData (points (run (generateDataByResolution random now resolution
                                  start end_ metrics))) metric).
Proof.
  intros Ht Hm. apply sampleData_keeps_endpoints; [done|].
  unfold run. set (pts := points _).
  intros j r d Hj Hr Hd. unfold rawData in *.
  rewrite length_fmap in Hj. rewrite fmap_last in Hd.
  rewrite list_lookup_fmap in Hr.
  destruct (pts !! j) as [pj|] eqn:Hpj; [|done].
  rewrite last_lookup in Hd.
  destruct (pts !! pred (length pts)) as [pl|] eqn:Hpl; [|done].
  simpl in Hr, Hd. inversion Hr; subst r. inversion Hd; subst d.
  assert (Hjl : (j < pred (length pts))%nat) by (clear -Hj; lia).
  destruct (generated_timestamps_increasing random now resolution start end_
              metrics 0%nat j (pred (length pts)) pj pl Ht Hjl Hpj Hpl)
    as (tj & tl & -> & -> & Hlt).
  unfold first_differs. simpl.
  destruct (Qeq_bool (inject_Z tj) (inject_Z tl)) eqn:Heq; [|done].
  apply Qeq_bool_iff in Heq. rewrite inject_Z_injective in Heq. lia.
Qed.

Lemma generated_series_keeps_endpoints_witness :
  last (sampleData
          (rawData (points (run (generateDataByResolution (fun _ => 0%Q) 1700000000000
                                   R30s (Some 1699999880000) (Some 1700000000000)
                                   None))) "cpu_1") 2)
  = last (rawData (points (run (generateDataByResolution (fun _ => 0%Q) 1700000000000
                                  R30s (Some 1699999880000) (Some 1700000000000)
                                  None))) "cpu_1").
Proof.
  apply (generated_series_keeps_endpoints (fun _ => 0%Q) 1700000000000 R30s
           (Some 1699999880000) (Some 1700000000000) None "cpu_1" 2).
  - simpl. unfold defaultMetricNames. intros H.
    repeat (apply elem_of_cons in H as [H|H]; [discriminate|]).
    by apply elem_of_nil in H.
  - lia.
Defined.

(** ** The two buckets of series *)

Lemma seriesOf_low st data metrics visibleMetrics maxPoints :
  lowResData st = Some data -> highResData st = None ->
  series_metric <$> seriesOf st metrics visibleMetrics maxPoints = metrics /\
  Forall (fun sr => series_opacity sr
                    = if bool_decide (activeResolution st = R1h) then 1 else 0)
    (seriesOf st metrics visibleMetrics maxPoints).
Proof.
  intros Hlow Hhigh. unfold seriesOf. rewrite Hlow, Hhigh, app_nil_r. split.
  - rewrite <- list_fmap_compose. by rewrite <- (list_fmap_id metrics) at 2.
  - apply Forall_fmap. by apply Forall_true.
Qed.

Lemma seriesOf_high st data metrics visibleMetrics maxPoints :
  lowResData st = None -> highResData st = Some data ->
  series_metric <$> seriesOf st metrics visibleMetrics maxPoints = metrics /\
  Forall (fun sr => series_opacity sr
                    = if bool_decide (activeResolution st ≠ R1h) then 1 else 0)
    (seriesOf st metrics visibleMetrics maxPoints).
Proof.
  intros Hlow Hhigh. unfold seriesOf. rewrite Hlow, Hhigh, app_nil_l. split.
  - rewrite <- list_fmap_compose. by rewrite <- (list_fmap_id metrics) at 2.
  - apply Forall_fmap. by apply Forall_true.
Qed.

Lemma loadData_fills_one_bucket_aux
    (st : DataState) (data : MetricsResponse)
    (metrics visibleMetrics : list string) (maxPoints : Z) :
  (lowResData (loadData_end (loadData_begin st) (Some data)),
   highResData (loadData_end (loadData_begin st) (Some data)))
  = (if bool_decide (step data = R1d) || bool_decide (step data = R1h)
     then (Some data, None) else (None, Some data)) /\
  Forall (fun sr => series_opacity sr = if bool_decide (step data = R1d) then 0 else 1)
    (seriesOf (loadData_end (loadData_begin st) (Some data))
       metrics visibleMetrics maxPoints).
Proof.
  split.
  { unfold loadData_end. by destruct (_ || _). }
  unfold loadData_end, loadData_begin. cbv zeta.
  destruct (step data) eqn:Hstep;
    [destruct (seriesOf_low
                 {| loading := false; lowResData := Some data; highResData := None;
                    activeResolution := R1d |} data metrics visibleMetrics maxPoints
                 eq_refl eq_refl) as [_ Hop]
    |destruct (seriesOf_low
                 {| loading := false; lowResData := Some data; highResData := None;
                    activeResolution := R1h |} data metrics visibleMetrics maxPoints
                 eq_refl eq_refl) as [_ Hop]
    |destruct (seriesOf_high
                 {| loading := false; lowResData := None; highResData := Some data;
                    activeResolution := R1m |} data metrics visibleMetrics maxPoints
                 eq_refl eq_refl) as [_ Hop]
    |destruct (seriesOf_high
                 {| loading := false; lowResData := None; highResData := Some data;
                    activeResolution := R30s |} data metrics visibleMetrics maxPoints
                 eq_refl eq_refl) as [_ Hop]];
    exact Hop.
Qed.

(** X15.  When [loadData] has received a series, [loading] is false, the
    active resolution is the step of the series, and exactly one bucket holds
    it: the low one for the steps ['1d'] and ['1h'], the high one for ['1m']
    and ['30s'], the other bucket being emptied.  The option then has one
    series per metric, in the order of the metrics, and these series all have
    the opacity 1, except for a series of step ['1d'], for which they all
    have the opacity 0. *)
Theorem loadData_fills_one_bucket
    (st : DataState) (data : MetricsResponse)
    (metrics visibleMetrics : list string) (maxPoints : Z) :
  loading (loadData_begin st) = true /\
  loading (loadData_end (loadData_begin st) (Some data)) = false /\
  activeResolution (loadData_end (loadData_begin st) (Some data)) = step data /\
  (lowResData (loadData_end (loadData_begin st) (Some data)),
   highResData (loadData_end (loadData_begin st) (Some data)))
  = (if bool_decide (step data = R1d) || bool_decide (step data = R1h)
     then (Some data, None) else (None, Some data)) /\
  series_metric <$> seriesOf (loadData_end (loadData_begin st) (Some data))
                      metrics visibleMetrics maxPoints = metrics /\
  Forall (fun sr => series_opacity sr = if bool_decide (step data = R1d) then 0 else 1)
    (seriesOf (loadData_end (loadData_begin st) (Some data))
       metrics visibleMetrics maxPoints).
Proof.
  split; [done|]. split; [done|]. split.
  { unfold loadData_end. by destruct (_ || _). }
  split.
  { unfold loadData_end. by destruct (_ || _). }
  unfold loadData_end, loadData_begin. cbv zeta.
  destruct (step data) eqn:Hstep;
    [destruct (seriesOf_low
                 {| loading := false; lowResData := Some data; highResData := None;
                    activeResolution := R1d |} data metrics visibleMetrics maxPoints
                 eq_refl eq_refl) as [Hnames Hop]
    |destruct (seriesOf_low
                 {| loading := false; lowResData := Some data; highResData := None;
                    activeResolution := R1h |} data metrics visibleMetrics maxPoints
                 eq_refl eq_refl) as [Hnames Hop]
    |destruct (seriesOf_high
                 {| loading := false; lowResData := None; highResData := Some data;
                    activeResolution := R1m |} data metrics visibleMetrics maxPoints
                 eq_refl eq_refl) as [Hnames Hop]
    |destruct (seriesOf_high
                 {| loading := false; lowResData := None; highResData := Some data;
                    activeResolution := R30s |} data metrics visibleMetrics maxPoints
                 eq_refl eq_refl) as [Hnames Hop]];
    split; [exact Hnames | exact Hop | exact Hnames | exact Hop
           | exact Hnames | exact Hop | exact Hnames | exact Hop].
Qed.

(** X16.  When the component mounts, the effect of the first load sets the
    active resolution to the step ['1d'] of its series, and the theme effect,
    which runs after it and finds the chart that the chart effect has just
    made, disposes of that chart and sets the series of its own call of
    [getInitialData] with the active resolution ['1h'] written out.  The
    render that follows the mount therefore has a series of step ['1d'] in
    the low bucket under the active resolution ['1h'], no chart in the ref,
    and one series per metric, all of opacity 1; [handleResetZoom] leaves
    the same from any state.  Only without the [div], in which case no chart
    is made and no option is built, does the active resolution ['1d'] of the
    first load stay. *)
Theorem initial_series_opacity
    (random random' : nat -> Q) (now now' now2 now2' : Z) (element : bool)
    (st : DataState) (metrics visibleMetrics : list string) (maxPoints : Z) :
  activeResolution
    (dataState (mount element (run (getInitialData random now now'))
                  (run (getInitialData random' now2 now2'))))
  = (if element then R1h else R1d) /\
  lowResData
    (dataState (mount true (run (getInitialData random now now'))
                  (run (getInitialData random' now2 now2'))))
  = Some (run (getInitialData random' now2 now2')) /\
  highResData
    (dataState (mount true (run (getInitialData random now now'))
                  (run (getInitialData random' now2 now2')))) = None /\
  step (run (getInitialData random' now2 now2')) = R1d /\
  chartInstanceRef (mount true (run (getInitialData random now now'))
                      (run (getInitialData random' now2 now2'))) = false /\
  Forall (fun sr => series_opacity sr = 1)
    (seriesOf (dataState (mount true (run (getInitialData random now now'))
                            (run (getInitialData random' now2 now2'))))
       metrics visibleMetrics maxPoints) /\
  series_metric
    <$> seriesOf (dataState (mount true (run (getInitialData random now now'))
                               (run (getInitialData random' now2 now2'))))
          metrics visibleMetrics maxPoints = metrics /\
  activeResolution (resetToInitial st (run (getInitialData random now now'))) = R1h /\
  Forall (fun sr => series_opacity sr = 1)
    (seriesOf (resetToInitial st (run (getInitialData random now now')))
       metrics visibleMetrics maxPoints) /\
  series_metric <$> seriesOf (resetToInitial st (run (getInitialData random now now')))
                      metrics visibleMetrics maxPoints = metrics.
Proof.
  assert (Hstep : forall r n n', step (run (getInitialData r n n')) = R1d)
    by (intros; apply generateDataByResolution_step).
  set (d := run (getInitialData random now now')) in *.
  set (d' := run (getInitialData random' now2 now2')) in *.
  destruct (seriesOf_low (dataState (mount true d d')) d' metrics visibleMetrics
              maxPoints eq_refl eq_refl) as [Hn1 Ho1].
  destruct (seriesOf_low (resetToInitial st d) d metrics visibleMetrics
              maxPoints eq_refl eq_refl) as [Hn2 Ho2].
  split.
  { destruct element; cbn; [done|]. apply Hstep. }
  split; [done|]. split; [done|]. split; [apply Hstep|]. split; [done|].
  split; [exact Ho1|]. split; [exact Hn1|]. split; [done|].
  split; [exact Ho2 | exact Hn2].
Qed.

Lemma getData_miss_step random random' now' now'' svc p o :
  o = Rejected \/ o = run (await_fetchMetrics random' now'' p) ->
  step (run (getData_resume random now' svc p o)).2 = p_resolution p.
Proof.
  intros [->| ->].
  - unfold getData_resume, run, mbind, Rand_bind.
    pose proof (generateDataByResolution_step random now' (p_resolution p)
                  (Some (p_start p)) (Some (p_end p)) (Some (p_metrics p)) 0%nat) as H.
    by destruct (generateDataByResolution _ _ _ _ _ _ 0%nat).
  - unfold await_fetchMetrics, run, mbind, Rand_bind.
    pose proof (fetchMetrics_data random' now'' (p_start p) (p_end p) (p_metrics p)
                  (p_resolution p) 0%nat) as Hdata.
    destruct (fetchMetrics _ _ _ _ _ _ 0%nat) as [[delay data] k].
    cbn [mret Rand_ret fst snd getData_resume] in *. rewrite Hdata.
    apply generateDataByResolution_step.
Qed.

(** X17.  When a zoom to a window misses the cache, the series that [getData]
    returns, fetched or generated after a failure, has the step that
    [getResolutionForRange] gives for the window; once [loadData] has stored
    it, the series of the option have the opacity 0 when the window is at
    least 365 days long and the opacity 1 otherwise, and the series is in the
    low bucket exactly when the window is at least 30 days long. *)
Theorem zoom_load_opacity
    (random random' : nat -> Q) (now now' now'' : Z) (svc svc' : MonitorService)
    (start end_ : Z) (metrics : list string) (p : Pending) (o : Settled)
    (st : DataState) (visibleMetrics : list string) (maxPoints : Z) :
  getData_begin svc now start end_ metrics = Awaiting p ->
  o = Rejected \/ o = run (await_fetchMetrics random' now'' p) ->
  step (run (getData_resume random now' svc' p o)).2 = getResolutionForRange start end_ /\
  Forall (fun sr => series_opacity sr = if YEAR <=? end_ - start then 0 else 1)
    (seriesOf (loadData_end (loadData_begin st)
                 (Some (run (getData_resume random now' svc' p o)).2))
       metrics visibleMetrics maxPoints) /\
  (lowResData (loadData_end (loadData_begin st)
                 (Some (run (getData_resume random now' svc' p o)).2))
   = if MONTH <=? end_ - start
     then Some (run (getData_resume random now' svc' p o)).2 else None).
Proof.
  intros Hbegin Ho.
  pose proof (getData_miss_step random random' now' now'' svc' p o Ho) as Hstep.
  apply getData_begin_miss in Hbegin as [_ Hp].
  assert (Hres : p_resolution p = getResolutionForRange start end_) by (by subst p).
  rewrite Hres in Hstep. clear Hp Hres Ho.
  set (data := (run (getData_resume random now' svc' p o)).2) in *.
  destruct (loadData_fills_one_bucket_aux st data metrics visibleMetrics maxPoints)
    as (Hbuckets & Hop).
  split; [done|]. rewrite getResolutionForRange_cases in Hstep.
  split.
  - eapply Forall_impl; [exact Hop|]. intros sr ->. rewrite Hstep.
    destruct (Z.leb_spec YEAR (end_ - start)); [done|].
    destruct (Z.leb_spec MONTH (end_ - start)); [done|].
    by destruct (Z.leb_spec HOUR (end_ - start)).
  - apply (f_equal fst) in Hbuckets. cbn [fst] in Hbuckets.
    rewrite Hbuckets, Hstep.
    destruct (Z.leb_spec YEAR (end_ - start)) as [Hy|Hy].
    + rewrite (proj2 (Z.leb_le MONTH _)) by (unfold YEAR, MONTH in *; lia). done.
    + destruct (Z.leb_spec MONTH (end_ - start)); [done|].
      by destruct (Z.leb_spec HOUR (end_ - start)).
Qed.

Lemma zoom_load_opacity_witness :
  step (run (getData_resume (fun _ => 0%Q) 1700000000300 empty_service
               {| p_start := 1699000000000; p_end := 1700000000000;
                  p_metrics := Array_sort ["cpu_1"]%string;
                  p_resolution := getResolutionForRange 1699000000000 1700000000000;
                  p_cacheKey := (generateCacheKey 1699000000000 1700000000000
                                   (getResolutionForRange 1699000000000 1700000000000)
                                   ["cpu_1"]%string).1;
                  p_now := 1700000000000 |} Rejected)).2
  = getResolutionForRange 1699000000000 1700000000000.
Proof.
  exact (proj1 (zoom_load_opacity (fun _ => 0%Q) (fun _ => 0%Q) 1700000000000
                  1700000000300 1700000000300 empty_service empty_service
                  1699000000000 1700000000000 ["cpu_1"]%string _ Rejected
                  initial_state ["cpu_1"]%string 800 eq_refl (or_introl eq_refl))).
Defined.

(** ** The legend *)

Lemma ascii_lower_upper (c : Ascii.ascii) :
  not_upper c -> ascii_toLowerCase (ascii_toUpperCase c) = c.
Proof.
  unfold not_upper.
  destruct c as [[] [] [] [] [] [] [] []]; vm_compute; intros; congruence.
Qed.

Lemma ascii_toLowerCase_not_upper (c : Ascii.ascii) : not_upper (ascii_toLowerCase c).
Proof.
  unfold not_upper. destruct c as [[] [] [] [] [] [] [] []]; vm_compute; reflexivity.
Qed.

Lemma toLowerCase_toUpperCase (name : string) :
  string_forall not_upper name -> toLowerCase (toUpperCase name) = name.
Proof.
  unfold toLowerCase, toUpperCase.
  induction name as [|c name IH]; simpl; [done|]. intros [Hc Hname].
  by rewrite ascii_lower_upper, IH.
Qed.

Lemma toLowerCase_not_upper (name : string) :
  string_forall not_upper (toLowerCase name).
Proof.
  unfold toLowerCase. induction name as [|c name IH]; simpl; [done|].
  split; [apply ascii_toLowerCase_not_upper | done].
Qed.

(** X18.  The handler of the legend gives the lower-cased names of the
    selected entries, whatever the order in which [Object.entries] lists
    them.  When the metric names are made of ASCII characters without
    upper-case letters and the keys of the selection are legend names, the
    series of a metric is not [silent] after a change of the legend exactly
    when the entry of its legend name is selected.  Whatever the names and
    the selection, no name of the result has an upper-case letter, so that
    the series of a metric whose name has one is [silent] after every change
    of the legend. *)
Theorem legend_selection
    (metrics : list string) (selected : list (string * bool))
    (st : DataState) (maxPoints : Z) :
  (Forall (string_forall lower_ascii) metrics ->
   (forall key b, (key, b) ∈ selected -> key ∈ legendData metrics) ->
   Forall (fun sr => series_silent sr = false
                     <-> (toUpperCase (series_metric sr), true) ∈ selected)
     (seriesOf st metrics (legendselectchanged selected) maxPoints)) /\
  Forall (string_forall not_upper) (legendselectchanged selected) /\
  Forall (fun sr => ¬ string_forall not_upper (series_metric sr) ->
                    series_silent sr = true)
    (seriesOf st metrics (legendselectchanged selected) maxPoints).
Proof.
  split; [|split].
  - intros Hlower Hkeys.
    assert (Hnot : forall name, string_forall lower_ascii name ->
                                string_forall not_upper name).
    { induction name as [|c name IH]; [done|].
      intros [[_ Hc] Hname]. split; [exact Hc | by apply IH]. }
    assert (Hvis : forall metric, metric ∈ metrics ->
              negb (bool_decide (metric ∈ legendselectchanged selected)) = false
              <-> (toUpperCase metric, true) ∈ selected).
    { intros metric Hin. rewrite negb_false_iff, bool_decide_eq_true.
      pose proof (proj1 (Forall_forall _ _) Hlower metric Hin) as Hm.
      unfold legendselectchanged. rewrite list_elem_of_fmap. split.
      - intros ([key b] & Hlow & Hentry).
        apply list_elem_of_filter in Hentry as [Hb Hentry].
        simpl in Hb, Hlow. subst b.
        pose proof (Hkeys key true Hentry) as Hkey.
        unfold legendData in Hkey.
        apply list_elem_of_fmap in Hkey as (name & -> & Hname).
        pose proof (proj1 (Forall_forall _ _) Hlower name Hname) as Hn.
        rewrite toLowerCase_toUpperCase in Hlow by (by apply Hnot).
        by subst name.
      - intros Hentry. exists (toUpperCase metric, true). split.
        + simpl. symmetry. apply toLowerCase_toUpperCase. by apply Hnot.
        + apply list_elem_of_filter. by split. }
    unfold seriesOf. apply Forall_app. split.
    + destruct (lowResData st); [|constructor].
      apply Forall_fmap, Forall_forall. intros metric Hin. exact (Hvis metric Hin).
    + destruct (highResData st); [|constructor].
      apply Forall_fmap, Forall_forall. intros metric Hin. exact (Hvis metric Hin).
  - unfold legendselectchanged. apply Forall_fmap, Forall_forall.
    intros entry _. apply toLowerCase_not_upper.
  - assert (Hsilent : forall metric,
              ¬ string_forall not_upper metric ->
              negb (bool_decide (metric ∈ legendselectchanged selected)) = true).
    { intros metric Hup. apply negb_true_iff, bool_decide_eq_false. intros Hin.
      apply Hup. unfold legendselectchanged in Hin.
      apply list_elem_of_fmap in Hin as (entry & -> & _).
      apply toLowerCase_not_upper. }
    unfold seriesOf. apply Forall_app. split.
    + destruct (lowResData st); [|constructor].
      apply Forall_fmap, Forall_forall. intros metric _. exact (Hsilent metric).
    + destruct (highResData st); [|constructor].
      apply Forall_fmap, Forall_forall. intros metric _. exact (Hsilent metric).
Qed.

Lemma legend_selection_witness :
  Forall (fun sr => series_silent sr = false
                    <-> (toUpperCase (series_metric sr), true)
                        ∈ [("GPU_1", true); ("CPU_1", false)]%string)
    (seriesOf (resetToInitial initial_state some_series) ["cpu_1"; "gpu_1"]%string
       (legendselectchanged [("GPU_1", true); ("CPU_1", false)]%string) 800).
Proof.
  apply (legend_selection ["cpu_1"; "gpu_1"]%string
           [("GPU_1", true); ("CPU_1", false)]%string
           (resetToInitial initial_state some_series) 800).
  - repeat constructor.
  - intros key b Hin. change (key ∈ ["CPU_1"; "GPU_1"]%string).
    apply elem_of_cons in Hin as [Hin|Hin];
      [inversion Hin; subst; rewrite !elem_of_cons; auto|].
    apply elem_of_cons in Hin as [Hin|Hin];
      [inversion Hin; subst; rewrite !elem_of_cons; auto|].
    by apply elem_of_nil in Hin.
Defined.

(** ** The window of a zoom event *)

Lemma truthy_Some (x : Q) : truthy (Some x) = true <-> ¬ (x == 0)%Q.
Proof.
  simpl. rewrite negb_true_iff. split.
  - intros Hb Heq. apply Qeq_bool_iff in Heq. congruence.
  - intros Hne. destruct (Qeq_bool x 0) eqn:Hb; [|done].
    by apply Qeq_bool_iff in Hb.
Qed.

(** X19.  The handler of [dataZoom] reaches its call of [debounce] exactly in
    these cases: the event has a batch whose first entry has a numeric
    [startValue] (the window is then [startValue] and [endValue] as they
    are, whatever the axis); or it has a batch without it and the axis option
    has a [min] and a [max] that are not 0; or it has no batch, its [start]
    and [end] are numbers other than 0, and the axis has such a [min] and
    [max].  In every other case, as for the action [{start: 0, end: 100}] of
    [handleResetZoom] or when the axis option has no [min], the handler
    returns and the pending timer is left as it is. *)
Theorem zoomWindow_reaches_debounce
    (params : ZoomParams) (axisMin axisMax : option Q) :
  (is_Some (zoomWindow params axisMin axisMax) <->
   match params with
   | BatchParams (Some _) _ _ _ => True
   | BatchParams None _ _ _ => truthy axisMin && truthy axisMax = true
   | PlainParams start end_ =>
       truthy start && truthy end_ = true /\ truthy axisMin && truthy axisMax = true
   end) /\
  (forall startValue endValue start end_,
     zoomWindow (BatchParams (Some startValue) endValue start end_) axisMin axisMax
     = Some (Some startValue, endValue)) /\
  zoomWindow (PlainParams (Some 0%Q) (Some 100%Q)) axisMin axisMax = None /\
  (forall start end_,
     zoomWindow (BatchParams None None start end_) None axisMax = None).
Proof.
  assert (Hpct : forall start end_,
            is_Some (percentWindow axisMin axisMax start end_)
            <-> truthy axisMin && truthy axisMax = true).
  { intros start end_. unfold percentWindow.
    destruct axisMin as [xmin|], axisMax as [xmax|];
      try (split; [by intros [? ?] | by rewrite ?andb_false_r]).
    destruct (truthy (Some xmin) && truthy (Some xmax)); split; eauto.
    - by intros [? ?].
    - done. }
  split; [|split; [|split]]; try done.
  destruct params as [[startValue|] endValue start end_|start end_]; simpl.
  - split; eauto.
  - apply Hpct.
  - destruct (truthy start && truthy end_).
    + rewrite Hpct. split; [by split | by intros [_ ?]].
    + split; [by intros [? ?] | by intros [? _]].
Qed.

(** X20.  For an event that gives percentages, with an axis whose [min] and
    [max] are positive and in order and percentages [0 <= start <= end <= 100],
    the window lies inside the axis range, with its bounds in order, the
    percentage 0 giving [min] and the percentage 100 giving [max]; and the
    timer callback, when it runs, calls [loadData] with this window. *)
Theorem zoomWindow_percent_in_range
    (xmin xmax start end_ : Q) (endValue : option Q) :
  (0 < xmin)%Q -> (xmin <= xmax)%Q ->
  (0 <= start)%Q -> (start <= end_)%Q -> (end_ <= 100)%Q ->
  exists startValue endValue' : Q,
    zoomWindow (BatchParams None endValue (Some start) (Some end_))
      (Some xmin) (Some xmax) = Some (Some startValue, Some endValue') /\
    (xmin <= startValue)%Q /\ (startValue <= endValue')%Q /\ (endValue' <= xmax)%Q /\
    ((start == 0)%Q -> (startValue == xmin)%Q) /\
    ((end_ == 100)%Q -> (endValue' == xmax)%Q) /\
    loadedWindow (Some startValue, Some endValue') = Some (startValue, endValue').
Proof.
  intros Hmin Hle Hs Hse He.
  assert (Htmin : truthy (Some xmin) = true) by (apply truthy_Some; lra).
  assert (Htmax : truthy (Some xmax) = true) by (apply truthy_Some; lra).
  unfold zoomWindow, percentWindow. rewrite Htmin, Htmax.
  cbn [andb fmap option_fmap option_map].
  eexists _, _. split; [reflexivity|].
  unfold Qdiv. change (/ 100)%Q with (1 # 100)%Q.
  assert (H3 : (0 <= (xmax - xmin) * start)%Q) by (apply Qmult_le_0_compat; lra).
  assert (H4 : ((xmax - xmin) * start <= (xmax - xmin) * end_)%Q) by nra.
  assert (H5 : ((xmax - xmin) * end_ <= (xmax - xmin) * 100)%Q) by nra.
  split; [lra|]. split; [lra|]. split; [lra|].
  split; [intros H0; rewrite H0; lra|]. split; [intros H100; rewrite H100; lra|].
  unfold loadedWindow.
  rewrite (proj2 (truthy_Some _)) by lra. rewrite (proj2 (truthy_Some _)) by lra.
  reflexivity.
Qed.

Lemma zoomWindow_percent_in_range_witness :
  exists startValue endValue' : Q,
    zoomWindow (BatchParams None None (Some 25%Q) (Some 75%Q))
      (Some 1000%Q) (Some 2000%Q) = Some (Some startValue, Some endValue') /\
    (1000 <= startValue)%Q /\ (startValue <= endValue')%Q /\ (endValue' <= 2000)%Q.
Proof.
  destruct (zoomWindow_percent_in_range 1000 2000 25 75 None)
    as (sv & ev & Hw & H1 & H2 & H3 & _); try lra.
  exists sv, ev. repeat split; assumption.
Defined.

(** ** The debounce, for every sequence of events *)

(** What the pending timer adds to the calls when the time [T] has come. *)
Lemma fireDue_calls (T : Z) (c : Chart) (tm : Timer) :
  timers c = [tm] ->
  getDataCalls (fireDue T c)
  = getDataCalls c
    ++ (if (timer_due tm <=? T)
           && (negb ((timer_window tm).1 =? 0) && negb ((timer_window tm).2 =? 0))
        then [timer_window tm] else []).
Proof.
  intros Htm. destruct (Z.leb_spec (timer_due tm) T) as [Hdue|Hdue].
  - rewrite (fireDue_due _ _ _ Htm Hdue). unfold callback. cbn [andb].
    by destruct (_ && _); cbn [getDataCalls]; rewrite ?app_nil_r.
  - rewrite (fireDue_not_due _ _ _ Htm Hdue). cbn [andb]. by rewrite app_nil_r.
Qed.

Lemma zooms_debounced (events : list (Z * (Z * Z))) :
  forall (T t : Z) (window : Z * Z) (c : Chart) (id : positive),
    armed c ->
    timers c = [{| timer_id := id; timer_due := t + 200; timer_window := window |}] ->
    getDataCalls (fireDue T (zooms events c))
    = getDataCalls c ++ debounced ((t, window) :: events) T.
Proof.
  induction events as [|[t' window'] events IH]; intros T t window c id Harm Htm.
  - simpl. rewrite (fireDue_calls T c _ Htm). cbn [timer_due timer_window].
    by rewrite app_nil_r.
  - change (zooms ((t', window') :: events) c)
      with (zooms events (dataZoom t' window' c)).
    destruct (dataZoom_rearms t' window' c Harm) as (Harm' & Hcalls & id' & Htm').
    rewrite (IH T t' window' _ id' Harm' Htm'), Hcalls.
    rewrite (fireDue_calls t' c _ Htm). cbn [timer_due timer_window].
    rewrite <- app_assoc. reflexivity.
Qed.

(** X21.  For every sequence of zoom events, whatever their times and
    windows, the calls of [getData] made by the time [T] are exactly these:
    an event loads its window when no other event has come within 200 ms
    after it (the next event, or [T] for the last one, is at least 200 ms
    later) and neither bound of the window is 0.  The calls come in the order
    of the events, and an event never loads twice. *)
Theorem debounce_loads_settled_windows (events : list (Z * (Z * Z))) (T : Z) :
  getDataCalls (fireDue T (zooms events new_chart)) = debounced events T.
Proof.
  destruct events as [|[t window] events].
  - reflexivity.
  - change (zooms ((t, window) :: events) new_chart)
      with (zooms events (dataZoom t window new_chart)).
    destruct (dataZoom_rearms t window new_chart new_chart_armed)
      as (Harm & Hcalls & id & Htm).
    rewrite (zooms_debounced events T t window _ id Harm Htm), Hcalls.
    reflexivity.
Qed.

Lemma unmount_armed (c : Chart) : armed c -> timers (unmount c) = [].
Proof.
  unfold armed, unmount. intros Harm.
  destruct (timers c) as [|tm [|tm' l]] eqn:Htm; [| |done].
  - destruct (debounceTimerRef c); unfold clearTimeout; simpl; by rewrite ?Htm.
  - rewrite Harm. unfold clearTimeout. simpl. rewrite Htm.
    rewrite filter_cons, filter_nil.
    by destruct (decide (timer_id tm ≠ timer_id tm)).
Qed.

(** X22.  When the component unmounts, the pending timer of the debounce is
    cleared: after any sequence of zoom events, no timer is left, and no
    call of [getData] is made later for an event that had not loaded yet. *)
Theorem unmount_cancels_pending_load (events : list (Z * (Z * Z))) (T : Z) :
  timers (unmount (zooms events new_chart)) = [] /\
  getDataCalls (fireDue T (unmount (zooms events new_chart)))
  = getDataCalls (zooms events new_chart).
Proof.
  pose proof (unmount_armed _ (zooms_armed events new_chart new_chart_armed)) as Hno.
  split; [exact Hno|].
  rewrite (fireDue_idle T _ Hno). unfold unmount.
  by destruct (debounceTimerRef (zooms events new_chart)).
Qed.

(** ** The bands of the synthesized values *)

Section Bands.

Variable random : nat -> Q.
Hypothesis random_unit : forall k, (0 <= random k /\ random k < 1)%Q.

Lemma base_bounds (metric : string) :
  (30 <= base_lo metric /\ base_lo metric <= base_hi metric /\ base_hi metric <= 80)%Q.
Proof.
  unfold base_lo, base_hi.
  destruct (String.prefix "cpu" metric); [lra|].
  destruct (String.prefix "gpu" metric); [lra|].
  destruct (decide (metric = "memory"%string)); lra.
Qed.

Lemma metricRange_bounds (metric : string) : (8 <= metricRange metric <= 15)%Q.
Proof.
  unfold metricRange.
  destruct (String.prefix "cpu" metric).
  { destruct (decide _); [lra|]. destruct (decide _); lra. }
  destruct (String.prefix "gpu" metric).
  { destruct (decide _); lra. }
  destruct (decide _); lra.
Qed.

Lemma baseValue_eq metric (baseValues : gmap string Q) k :
  exists b : Q,
    (baseValue random metric baseValues k).1 = obj_set baseValues metric b /\
    (base_lo metric <= b <= base_hi metric)%Q.
Proof.
  unfold baseValue, mbind, Rand_bind, base_lo, base_hi. simpl.
  destruct (random_unit k) as [H0 H1].
  destruct (String.prefix "cpu" metric); [eexists; split; [reflexivity|lra]|].
  destruct (String.prefix "gpu" metric); [eexists; split; [reflexivity|lra]|].
  destruct (decide (metric = "memory"%string)); eexists; (split; [reflexivity|lra]).
Qed.

Lemma baseValue_inv metric (baseValues : gmap string Q) k :
  (forall m v, baseValues !! m = Some v -> (base_lo m <= v <= base_hi m)%Q) ->
  forall m v, (baseValue random metric baseValues k).1 !! m = Some v ->
              (base_lo m <= v <= base_hi m)%Q.
Proof.
  intros Hinv m v. destruct (baseValue_eq metric baseValues k) as (b & -> & Hb).
  rewrite lookup_obj_set. repeat case_decide; try (by apply Hinv).
  intros [= <-]. by subst m.
Qed.

Lemma baseValue_defined metric (baseValues : gmap string Q) k visited :
  (forall m, m ∈ visited -> m ≠ "__proto__"%string -> is_Some (baseValues !! m)) ->
  forall m, m ∈ visited ++ [metric] -> m ≠ "__proto__"%string ->
            is_Some ((baseValue random metric baseValues k).1 !! m).
Proof.
  intros Hinv m Hm Hne. destruct (baseValue_eq metric baseValues k) as (b & -> & _).
  rewrite lookup_obj_set.
  apply elem_of_app in Hm as [Hm|Hm].
  - repeat case_decide; eauto.
  - apply list_elem_of_singleton in Hm. subst m. repeat case_decide; try done; eauto.
Qed.

Lemma toFixed1_near (x : Q) :
  (0 <= x)%Q -> (x - (1 # 20) <= toFixed1 x /\ toFixed1 x <= x + (1 # 20))%Q.
Proof.
  intros H0. unfold toFixed1.
  rewrite (proj2 (Qle_bool_iff 0 x) H0).
  pose proof (Qfloor_le (x * 10 + (1 # 2))) as Hle.
  pose proof (Qlt_floor (x * 10 + (1 # 2))) as Hlt.
  rewrite inject_Z_plus in Hlt. change (inject_Z 1) with 1%Q in Hlt.
  set (n := inject_Z (Qfloor (x * 10 + (1 # 2)))) in *.
  unfold Qdiv. change (/ 10)%Q with (1 # 10)%Q. lra.
Qed.

Lemma generateRandomValue_band base range k :
  (30 <= base <= 80)%Q -> (8 <= range <= 15)%Q ->
  (base - (11 # 20) * range
   <= (generateRandomValue random base range (1 # 10) k).1
   <= base + (11 # 20) * range)%Q.
Proof.
  intros Hbase Hrange. unfold generateRandomValue. simpl.
  destruct (random_unit k) as [H0 H1]. destruct (random_unit (S k)) as [H0' H1'].
  set (r1 := random k) in *. set (r2 := random (S k)) in *.
  set (x := (base + (r1 - (1 # 2)) * range + (r2 - (1 # 2)) * (1 # 10) * range)%Q).
  assert (Hx : (base - (11 # 20) * range <= x <= base + (11 # 20) * range)%Q).
  { unfold x. split; nra. }
  assert (Hmin : (Qmin 100 x == x)%Q) by (apply Q.min_r; lra).
  assert (Hmax : (Qmax 0 x == x)%Q) by (apply Q.max_r; lra).
  rewrite Hmin, Hmax. exact Hx.
Qed.

End Bands.

(** The band invariant of the inner loop. *)
Lemma pointValue_band random (baseValues : gmap string Q) visited metric
    (p : MetricPoint) k :
  (forall j, (0 <= random j /\ random j < 1)%Q) ->
  (forall m v, baseValues !! m = Some v -> (base_lo m <= v <= base_hi m)%Q) ->
  (metric ≠ "__proto__"%string -> is_Some (baseValues !! metric)) ->
  p !! ("__proto__"%string) = None ->
  (forall m v, m ∈ visited -> p !! m = Some v -> (band_lo m <= v <= band_hi m)%Q) ->
  (pointValue random baseValues metric p k).1 !! ("__proto__"%string) = None /\
  (forall m v, m ∈ visited ++ [metric] ->
     (pointValue random baseValues metric p k).1 !! m = Some v ->
     (band_lo m <= v <= band_hi m)%Q).
Proof.
  intros Hrandom Hbase Hdef Hproto Hinv. unfold pointValue.
  pose proof (generateRandomValue_band random Hrandom
                (default 0%Q (baseValues !! metric)) (metricRange metric) k) as Hband.
  unfold mbind, Rand_bind.
  destruct (generateRandomValue random _ _ _ k) as [x k'] eqn:Hx. simpl in *.
  split.
  { rewrite lookup_obj_set. repeat case_decide; done. }
  intros m v Hm. rewrite lookup_obj_set.
  destruct (decide (metric = "__proto__"%string)) as [Hp|Hp].
  { intros Hv. apply elem_of_app in Hm as [Hm|Hm]; [by apply Hinv|].
    apply list_elem_of_singleton in Hm. subst m. congruence. }
  destruct (decide (metric = m)) as [<-|Hne].
  - intros [= <-]. destruct (Hdef Hp) as [b Hb]. rewrite Hb in Hband. simpl in Hband.
    pose proof (Hbase _ _ Hb) as Hbb. pose proof (base_bounds metric) as Hbs.
    pose proof (metricRange_bounds metric) as Hr.
    specialize (Hband ltac:(lra) Hr).
    pose proof (toFixed1_near x ltac:(lra)) as Hnear.
    unfold band_lo, band_hi. lra.
  - intros Hv. apply elem_of_app in Hm as [Hm|Hm]; [by apply Hinv|].
    apply list_elem_of_singleton in Hm. by subst m.
Qed.

Lemma makePoint_band random ms (baseValues : gmap string Q) startTime interval i
    (pts : list MetricPoint) k :
  (forall j, (0 <= random j /\ random j < 1)%Q) ->
  (forall m v, baseValues !! m = Some v -> (base_lo m <= v <= base_hi m)%Q) ->
  (forall m, m ∈ ms -> m ≠ "__proto__"%string -> is_Some (baseValues !! m)) ->
  Forall (fun p : MetricPoint =>
            forall m v, m ∈ ms -> p !! m = Some v -> (band_lo m <= v <= band_hi m)%Q)
    pts ->
  Forall (fun p : MetricPoint =>
            forall m v, m ∈ ms -> p !! m = Some v -> (band_lo m <= v <= band_hi m)%Q)
    (makePoint random ms baseValues startTime interval i pts k).1.
Proof.
  intros Hrandom Hbase Hdef Hpts. unfold makePoint.
  set (p0 := ({[ "t"%string := _ ]} : MetricPoint)).
  pose proof (forEach_prefix_inv
                (fun (visited : list string) (p : MetricPoint) =>
                   (forall m, m ∈ visited -> m ∈ ms) ->
                   p !! ("__proto__"%string) = None /\
                   (forall m v, m ∈ visited -> p !! m = Some v ->
                                (band_lo m <= v <= band_hi m)%Q))
                (pointValue random baseValues) ms
                (fun l1 x p k3 IH Hsub =>
                   let Hsub1 := fun m0 (H0 : m0 ∈ l1) =>
                                  Hsub m0 (proj2 (elem_of_app l1 [x] m0) (or_introl H0)) in
                   pointValue_band random baseValues l1 x p k3 Hrandom Hbase
                     (Hdef x (Hsub x (proj2 (elem_of_app l1 [x] x)
                                        (or_intror (list_elem_of_here x [])))))
                     (proj1 (IH Hsub1)) (proj2 (IH Hsub1)))
                [] p0 k) as Hp.
  unfold mbind, Rand_bind.
  destruct (forEach ms (pointValue random baseValues) p0 k) as [p' k'].
  simpl in *. apply Forall_app. split; [done|]. apply Forall_singleton.
  destruct Hp as [_ Hp]; [| |done].
  - intros _. split; [by apply lookup_singleton_ne|].
    intros m0 v0 Hm0. by apply elem_of_nil in Hm0.
  - done.
Qed.

(** X23.  When the random numbers lie in [0, 1), as those of [Math.random()]
    do, every value of a series lies in the band of its metric: the interval
    of the base values of the family of the name (30..50 for [cpu...],
    40..70 for [gpu...], 60..80 for [memory], 50..80 otherwise), widened by
    0.55 times the range of the metric and by the rounding.  Every band lies
    strictly between 21 and 89, so that the clamping to [0, 100] never
    acts. *)
Theorem generateDataByResolution_value_bands
    (random : nat -> Q) (now : Z) (resolution : Resolution)
    (start end_ : option Z) (metrics : option (list string)) :
  (forall k, (0 <= random k /\ random k < 1)%Q) ->
  Forall (fun p : MetricPoint =>
            forall m v, m ∈ default defaultMetricNames metrics -> p !! m = Some v ->
                        (band_lo m <= v <= band_hi m)%Q)
    (points (run (generateDataByResolution random now resolution start end_ metrics)))
  /\ (forall m, (21 < band_lo m /\ band_hi m < 89)%Q).
Proof.
  intros Hrandom. split.
  2:{ intros m. pose proof (base_bounds m). pose proof (metricRange_bounds m).
      unfold band_lo, band_hi. split; lra. }
  unfold run, generateDataByResolution. cbv zeta. unfold mbind, Rand_bind.
  set (ms := default defaultMetricNames metrics).
  pose proof (forEach_prefix_inv
                (fun (visited : list string) (bv : gmap string Q) =>
                   (forall m v, bv !! m = Some v -> (base_lo m <= v <= base_hi m)%Q) /\
                   (forall m, m ∈ visited -> m ≠ "__proto__"%string ->
                              is_Some (bv !! m)))
                (baseValue random) ms
                (fun l1 x bv k0 H =>
                   conj (baseValue_inv random Hrandom x bv k0 (proj1 H))
                        (baseValue_defined random Hrandom x bv k0 l1 (proj2 H)))
                [] ∅ 0%nat) as Hbv.
  destruct (forEach ms (baseValue random) ∅ 0%nat) as [baseValues k1].
  destruct Hbv as [Hbase Hdef].
  { split; [intros m v; by rewrite lookup_empty
           | intros m Hm; by apply elem_of_nil in Hm]. }
  simpl in Hbase, Hdef.
  match goal with
  | |- context [forEach ?l ?body [] k1] =>
      pose proof (forEach_inv
                    (Forall (fun p : MetricPoint =>
                               forall m v, m ∈ ms -> p !! m = Some v ->
                                           (band_lo m <= v <= band_hi m)%Q))
                    body l
                    (fun x pts0 k0 H =>
                       makePoint_band random ms baseValues _ _ x pts0 k0
                         Hrandom Hbase Hdef H)
                    [] k1 (Forall_nil_2 _)) as Hpts;
      destruct (forEach l body [] k1) as [pts k2]
  end.
  exact Hpts.
Qed.

Lemma generateDataByResolution_value_bands_witness :
  Forall (fun p : MetricPoint =>
            forall m v, m ∈ defaultMetricNames -> p !! m = Some v ->
                        (band_lo m <= v <= band_hi m)%Q)
    (points (run (generateDataByResolution (fun _ => 0%Q) 1700000000000 R30s
                    (Some 1699999880000) (Some 1700000000000) None)))
  /\ (forall m, (21 < band_lo m /\ band_hi m < 89)%Q).
Proof.
  apply (generateDataByResolution_value_bands (fun _ => 0%Q) 1700000000000 R30s
           (Some 1699999880000) (Some 1700000000000) None).
  intros k. split; [apply Qle_refl | reflexivity].
Defined.
